(** * Cosmovisor upgrade-plan file watcher (tools/cosmovisor/scanner.go)

    A shallow embedding of the watcher of [scanner.go] and the properties of
    its decision routine [CheckUpdate], of the re-arming entry point
    [MonitorUpdate] and of the URL scanner [getVersionAndRepoFromUrl].

    Conventions.
    - Go [string] and [[]byte] are byte strings: [string] of the Standard
      Library.  Case folding ([strings.EqualFold], [strings.ToLower]) is
      implemented on the ASCII letters; bytes above 0x7f are kept as they
      are.
    - [int] and [int64] are [Z]; the code only compares and increments them,
      and [strconv.ParseInt] clamps to the 64-bit range itself.
    - [time.Time] is an instant on the time line, a [Z]; [After] is [>].
    - What the routine does to the outside (stat, read, subprocess, HTTP
      POST, console output) is recorded as a trace of [Event]s. *)

From Stdlib Require Import ZArith List String Ascii Bool Lia.
Import ListNotations.
Open Scope string_scope.
Open Scope Z_scope.

(* ================================================================== *)
(** ** Strings: the pieces of Go's [strings] package the file uses *)

Module Strings.

Definition isUpper (c : ascii) : bool := (("A" <=? c) && (c <=? "Z"))%char.
Definition isDigit (c : ascii) : bool := (("0" <=? c) && (c <=? "9"))%char.

Definition lowerByte (c : ascii) : ascii :=
  if isUpper c then ascii_of_nat (nat_of_ascii c + 32) else c.

(** [strings.ToLower] *)
Fixpoint ToLower (s : string) : string :=
  match s with
  | EmptyString => EmptyString
  | String c s' => String (lowerByte c) (ToLower s')
  end.

(** [strings.EqualFold]: equality under case folding. *)
Definition EqualFold (s t : string) : bool := String.eqb (ToLower s) (ToLower t).

(** [strings.Split(s, sep)] for a one-byte separator: always at least one
    piece; [n] separators give [n+1] pieces. *)
Fixpoint Split (s : string) (sep : ascii) : list string :=
  match s with
  | EmptyString => [EmptyString]
  | String c s' =>
      if Ascii.eqb c sep then EmptyString :: Split s' sep
      else match Split s' sep with
           | [] => [String c EmptyString]
           | seg :: segs => String c seg :: segs
           end
  end.

Fixpoint rev_string (s acc : string) : string :=
  match s with
  | EmptyString => acc
  | String c s' => rev_string s' (String c acc)
  end.

(** [strings.HasSuffix] *)
Definition HasSuffix (s suffix : string) : bool :=
  String.prefix (rev_string suffix "") (rev_string s "").

End Strings.

(* ================================================================== *)
(** ** Regular expressions: [regexp.MatchString] *)

Module Regexp.

Inductive regex : Type :=
| Void  : regex                          (* matches nothing *)
| Eps   : regex                          (* the empty string *)
| Class : (ascii -> bool) -> regex       (* one byte of a class *)
| Cat   : regex -> regex -> regex
| Alt   : regex -> regex -> regex
| Star  : regex -> regex.

Definition Plus (r : regex) : regex := Cat r (Star r).

(** A compiled pattern: whether it starts with the anchor [^], and the
    rest. *)
Record pattern : Type := { bol : bool; body : regex }.

(** The language of a regex. *)
Inductive lang : regex -> list ascii -> Prop :=
| L_eps : lang Eps []
| L_class p c : p c = true -> lang (Class p) [c]
| L_cat r1 r2 u v : lang r1 u -> lang r2 v -> lang (Cat r1 r2) (u ++ v)%list
| L_alt_l r1 r2 u : lang r1 u -> lang (Alt r1 r2) u
| L_alt_r r1 r2 u : lang r2 u -> lang (Alt r1 r2) u
| L_star_nil r : lang (Star r) []
| L_star_app r u v : lang r u -> lang (Star r) v -> lang (Star r) (u ++ v)%list.

Fixpoint nullable (r : regex) : bool :=
  match r with
  | Void => false
  | Eps => true
  | Class _ => false
  | Cat r1 r2 => nullable r1 && nullable r2
  | Alt r1 r2 => nullable r1 || nullable r2
  | Star _ => true
  end.

(** Brzozowski derivative. *)
Fixpoint deriv (c : ascii) (r : regex) : regex :=
  match r with
  | Void => Void
  | Eps => Void
  | Class p => if p c then Eps else Void
  | Cat r1 r2 =>
      if nullable r1 then Alt (Cat (deriv c r1) r2) (deriv c r2)
      else Cat (deriv c r1) r2
  | Alt r1 r2 => Alt (deriv c r1) (deriv c r2)
  | Star r1 => Cat (deriv c r1) (Star r1)
  end.

(** Does some prefix of [s] belong to the language of [r]? *)
Fixpoint prefix_match (r : regex) (s : list ascii) : bool :=
  nullable r ||
  match s with
  | [] => false
  | c :: s' => prefix_match (deriv c r) s'
  end.

(** Does some substring of [s] belong to the language of [r]? *)
Fixpoint search (r : regex) (s : list ascii) : bool :=
  prefix_match r s ||
  match s with
  | [] => false
  | _ :: s' => search r s'
  end.

(** [regexp.MatchString(pattern, s)]: the pattern matches somewhere in [s].
    The second component is the compile error; a [pattern] is already
    compiled, so there is none. *)
Definition MatchString (p : pattern) (s : string) : bool * option string :=
  let bytes := list_ascii_of_string s in
  ((if bol p then prefix_match (body p) bytes else search (body p) bytes), None).

End Regexp.

(* ================================================================== *)
(** ** getVersionAndRepoFromUrl *)

Import Strings Regexp.

Definition is_vV (c : ascii) : bool := (Ascii.eqb c "v" || Ascii.eqb c "V")%char.
Definition is_dot (c : ascii) : bool := Ascii.eqb c "."%char.

(** The pattern [^[vV]\d+\.\d+\.\d+] of the source. *)
Definition versionPattern : pattern :=
  {| bol := true;
     body := Cat (Class is_vV)
            (Cat (Plus (Class isDigit))
            (Cat (Class is_dot)
            (Cat (Plus (Class isDigit))
            (Cat (Class is_dot)
                 (Plus (Class isDigit)))))) |}.

(** The variables of the loop of [getVersionAndRepoFromUrl]. *)
Record scan : Type := { githubIdx : Z; ver : string; repo : string }.

(** The [for idx, str := range substrings] loop, from index [idx] on. *)
Fixpoint scanSegments (substrings : list string) (idx : Z) (st : scan) : scan :=
  match substrings with
  | [] => st
  | str :: rest =>
      let githubIdx := if EqualFold str "github.com" then idx else githubIdx st in
      let repo :=
        if (githubIdx <? 0) || (idx <=? githubIdx + 2)
        then (if 0 <? idx then repo st ++ "/" else repo st) ++ str
        else repo st in
      let '(matched, e) := MatchString versionPattern str in
      if matched && (match e with None => true | Some _ => false end)
      then {| githubIdx := githubIdx; ver := str; repo := repo |}   (* break *)
      else scanSegments rest (idx + 1) {| githubIdx := githubIdx; ver := ver st; repo := repo |}
  end.

(** Returns [(repo, ver)]. *)
Definition getVersionAndRepoFromUrl (url : string) : string * string :=
  let substrings := Split url "/" in
  let st := scanSegments substrings 0 {| githubIdx := -1; ver := ""; repo := "" |} in
  let repo := if githubIdx st <? 0 then "" else repo st in
  (repo, ver st).

(** *** Vocabulary for the properties of the scanner *)

(** One or more decimal digits. *)
Definition digits (d : list ascii) : Prop := d <> [] /\ forallb isDigit d = true.

(** "v or V, followed by digits.digits.digits, followed by anything". *)
Definition VersionTag (s : string) : Prop :=
  exists c d1 d2 d3 rest,
    list_ascii_of_string s
      = (c :: d1 ++ "."%char :: d2 ++ "."%char :: d3 ++ rest)%list
    /\ is_vV c = true /\ digits d1 /\ digits d2 /\ digits d3.

(** The pattern in the words "optional v/V, followed by digits.digits.digits,
    followed by anything". *)
Definition optionalV_Pattern : pattern :=
  {| bol := true;
     body := Cat (Alt Eps (Class is_vV))
            (Cat (Plus (Class isDigit))
            (Cat (Class is_dot)
            (Cat (Plus (Class isDigit))
            (Cat (Class is_dot)
                 (Plus (Class isDigit)))))) |}.

(** [match && e == nil] *)
Definition matches (p : pattern) (s : string) : bool :=
  let '(matched, e) := MatchString p s in
  matched && (match e with None => true | Some _ => false end).

(** The first segment, from the left, that the pattern matches; empty when
    there is none. *)
Definition firstMatch (p : pattern) (segs : list string) : string :=
  match find (matches p) segs with
  | Some s => s
  | None => ""
  end.

(* ================================================================== *)
(** ** strconv.ParseInt(s, 10, 64) *)

Module Strconv.

Inductive NumError : Type := ErrSyntax | ErrRange.

Definition maxUint64 : Z := 2 ^ 64 - 1.

(** The digit loop of [ParseUint] in base 10: a byte that is no digit is a
    syntax error; an overflow stops the loop with the largest value. *)
Fixpoint ParseUint_loop (s : string) (n : Z) : Z * option NumError :=
  match s with
  | EmptyString => (n, None)
  | String c s' =>
      if isDigit c then
        let d := Z.of_nat (nat_of_ascii c) - 48 in
        if n >=? maxUint64 / 10 + 1 then (maxUint64, Some ErrRange)
        else
          let n1 := n * 10 + d in
          if n1 >? maxUint64 then (maxUint64, Some ErrRange)
          else ParseUint_loop s' n1
      else (0, Some ErrSyntax)
  end.

Definition ParseUint (s : string) : Z * option NumError :=
  match s with
  | EmptyString => (0, Some ErrSyntax)
  | _ => ParseUint_loop s 0
  end.

Definition ParseInt (s : string) : Z * option NumError :=
  match s with
  | EmptyString => (0, Some ErrSyntax)
  | String c s' =>
      let neg := Ascii.eqb c "-" in
      let s1 := if Ascii.eqb c "+" || Ascii.eqb c "-" then s' else s in
      let '(un, err) := ParseUint s1 in
      match err with
      | Some ErrSyntax => (0, Some ErrSyntax)
      | _ =>
          let cutoff := 2 ^ 63 in
          if negb neg && (un >=? cutoff) then (cutoff - 1, Some ErrRange)
          else if neg && (un >? cutoff) then (- cutoff, Some ErrRange)
          else ((if neg then - un else un), None)
      end
  end.

End Strconv.

(* ================================================================== *)
(** ** Data *)

(** Go [error] values, as far as the file builds them. *)
Inductive error : Type :=
| errorsNew (msg : string)                 (* errors.New *)
| errorOf (origin : string)                (* returned by a library call *)
| errorWrap (msg : string) (inner : error) (* fmt.Errorf with %w *).

Definition Time : Type := Z.
Definition After (t u : Time) : bool := t >? u.
(** [time.Time{}] *)
Definition zeroTime : Time := 0.

Module upgradetypes.

(** Modelled from the spec: [upgradetypes.Plan] is declared in
    x/upgrade/types, outside tools/cosmovisor; the spec gives it the fields
    name, height and info. *)
Record Plan : Type := { Name : string; Height : Z; Info : string }.

(** [upgradetypes.Plan{}] *)
Definition zero : Plan := {| Name := ""; Height := 0; Info := "" |}.

(** Modelled from the spec: [Plan.ValidateBasic] is declared in
    x/upgrade/types, outside tools/cosmovisor; the spec gives its rule as
    "name non-empty, height positive". *)
Definition ValidateBasic (p : Plan) : option error :=
  if String.eqb (Name p) "" then Some (errorOf "ValidateBasic: name cannot be empty")
  else if Height p <=? 0 then Some (errorOf "ValidateBasic: height must be greater than 0")
  else None.

End upgradetypes.

Record fileWatcher : Type := {
  filename : string;
  interval : Z;
  currentBin : string;
  currentInfo : upgradetypes.Plan;
  lastModTime : Time;
  (* cancel and ticker are channels; see [Signal] *)
  needsUpdate : bool;
  initialized : bool;
  disableRecase : bool
}.

Record callbackInfo : Type := {
  Name : string;
  Version : string;
  Repo : string;
  Info : string;
  Height : Z
}.

Definition set_currentInfo (p : upgradetypes.Plan) (fw : fileWatcher) : fileWatcher :=
  {| filename := filename fw; interval := interval fw; currentBin := currentBin fw;
     currentInfo := p; lastModTime := lastModTime fw;
     needsUpdate := needsUpdate fw; initialized := initialized fw;
     disableRecase := disableRecase fw |}.

Definition set_lastModTime (t : Time) (fw : fileWatcher) : fileWatcher :=
  {| filename := filename fw; interval := interval fw; currentBin := currentBin fw;
     currentInfo := currentInfo fw; lastModTime := t;
     needsUpdate := needsUpdate fw; initialized := initialized fw;
     disableRecase := disableRecase fw |}.

Definition set_needsUpdate (b : bool) (fw : fileWatcher) : fileWatcher :=
  {| filename := filename fw; interval := interval fw; currentBin := currentBin fw;
     currentInfo := currentInfo fw; lastModTime := lastModTime fw;
     needsUpdate := b; initialized := initialized fw;
     disableRecase := disableRecase fw |}.

Definition set_initialized (b : bool) (fw : fileWatcher) : fileWatcher :=
  {| filename := filename fw; interval := interval fw; currentBin := currentBin fw;
     currentInfo := currentInfo fw; lastModTime := lastModTime fw;
     needsUpdate := needsUpdate fw; initialized := b;
     disableRecase := disableRecase fw |}.

(** The value built at the end of [newUpgradeFileWatcher], from the resolved
    file name, the current binary and the two settings of the configuration. *)
Definition newUpgradeFileWatcher
    (filenameAbs bin : string) (pollInterval : Z) (recaseOff : bool) : fileWatcher :=
  {| filename := filenameAbs; interval := pollInterval; currentBin := bin;
     currentInfo := upgradetypes.zero; lastModTime := zeroTime;
     needsUpdate := false; initialized := false; disableRecase := recaseOff |}.

(* ================================================================== *)
(** ** The outside world and the trace *)

(** What the operating system answers during one poll.  [None] stands for a
    call that returns an error. *)
Record World : Type := {
  os_Args0 : string;                                  (* os.Args[0] *)
  os_Getenv : string -> string;
  os_Stat : string -> option Time;                    (* ModTime of the FileInfo *)
  os_ReadFile : string -> option string;
  exec_Output : string -> list string -> option string; (* exec.Command(..).Output() *)
  (* plan.ParseInfo: the Binaries of the parsed info, in the order in which
     [range] yields them *)
  plan_ParseInfo : string -> option (list string)
}.

(** Calls to the outside and to the watcher's collaborators, in the order in
    which they happen. *)
Inductive Event : Type :=
| Stat (name : string)
| ReadFile (name : string)
| ParseInfo (info : string)
| Extract (url : string)
| CheckHeight
| Exec (bin : string) (args : list string)
| Println (line : string)
| HttpPost (url contentType body : string).

Inductive outcome (A : Type) : Type :=
| Ret (a : A)
| Panic (e : error).
Arguments Ret {A} a.
Arguments Panic {A} e.

(** Computations of the watcher: they read the world, update the watcher,
    append to the trace, and return or panic. *)
Definition M (A : Type) : Type :=
  World -> fileWatcher -> outcome A * fileWatcher * list Event.

Definition ret {A} (a : A) : M A := fun _ fw => (Ret a, fw, []).

Definition bind {A B} (m : M A) (k : A -> M B) : M B :=
  fun w fw =>
    let '(o, fw1, t1) := m w fw in
    match o with
    | Ret a => let '(o2, fw2, t2) := k a w fw1 in (o2, fw2, (t1 ++ t2)%list)
    | Panic e => (Panic e, fw1, t1)
    end.

Definition panic {A} (e : error) : M A := fun _ fw => (Panic e, fw, []).
Definition ask : M World := fun w fw => (Ret w, fw, []).
Definition get : M fileWatcher := fun _ fw => (Ret fw, fw, []).
Definition modify (f : fileWatcher -> fileWatcher) : M unit := fun _ fw => (Ret tt, f fw, []).
Definition emit (e : Event) : M unit := fun _ fw => (Ret tt, fw, [e]).

Notation "x <- m ;; k" := (bind m (fun x => k))
  (at level 61, m at next level, right associativity).
Notation "' pat <- m ;; k" := (bind m (fun x => match x with pat => k end))
  (at level 61, pat pattern, m at next level, right associativity).
Notation "m ;; k" := (bind m (fun _ => k))
  (at level 61, right associativity).

(* ================================================================== *)
(** ** The watcher *)

(** [encoding/json], at the three types the file uses it at.  Decoding
    gives [None] on an error.  Of the status answer only the field
    [SyncInfo.latest_block_height] is kept; it is empty when the answer has
    none. *)
Class Json : Type := {
  json_Unmarshal_Plan : string -> option upgradetypes.Plan;
  json_Unmarshal_response : string -> option string;
  json_encode : callbackInfo -> string
}.

Section Watcher.

Context {codec : Json}.

(** [json.Marshal] at [callbackInfo].  It reports an error for values it
    cannot encode (channels, functions, cycles, NaN) and for failing
    [Marshaler] methods; four strings and an [int64] are none of these, so
    the error is nil. *)
Definition json_Marshal (c : callbackInfo) : string * option error :=
  (json_encode c, None).

Definition callbackUrl (w : World) (suffix : string) : string :=
  os_Getenv w "CALLBACK_API" ++ "/internal/cosmos/" ++ os_Getenv w "NODE_ID"
    ++ "/" ++ os_Getenv w "DEPLOYMENT_ID" ++ suffix.

Definition upgradeDetectedCallback (callbackJson : string) : M unit :=
  w <- ask ;;
  let callbackUrl := callbackUrl w "/cosmos_notify_upgrade" in
  emit (Println ("upgrade callback to " ++ callbackUrl)) ;;
  emit (HttpPost callbackUrl "application/json" callbackJson).

Definition upgradeHeightReachedCallback (callbackJson : string) : M unit :=
  w <- ask ;;
  let callbackUrl := callbackUrl w "/cosmos_upgrade_height_reached" in
  emit (Println ("upgrade height callback to " ++ callbackUrl)) ;;
  emit (HttpPost callbackUrl "application/json" callbackJson).

(** Returns [(height, err)]. *)
Definition checkHeight : M (Z * option error) :=
  emit CheckHeight ;;
  w <- ask ;;
  fw <- get ;;
  if HasSuffix (os_Args0 w) ".test" then ret (0, None)
  else
    emit (Exec (currentBin fw) ["status"]) ;;
    match exec_Output w (currentBin fw) ["status"] with
    | None => ret (0, Some (errorOf "exec.Output"))
    | Some result =>
        match json_Unmarshal_response result with
        | None => ret (0, Some (errorOf "json.Unmarshal"))
        | Some latestBlockHeight =>
            if String.eqb latestBlockHeight ""
            then ret (0, Some (errorsNew "latest block height is empty"))
            else
              let '(n, e) := Strconv.ParseInt latestBlockHeight in
              ret (n, match e with
                      | None => None
                      | Some _ => Some (errorOf "strconv.ParseInt")
                      end)
        end
    end.

(** Returns [(plan, err)]. *)
Definition parseUpgradeInfoFile (filename : string) (disableRecase : bool)
  : M (upgradetypes.Plan * option error) :=
  w <- ask ;;
  emit (ReadFile filename) ;;
  match os_ReadFile w filename with
  | None => ret (upgradetypes.zero, Some (errorOf "os.ReadFile"))
  | Some f =>
      if (Z.of_nat (String.length f) =? 0)
      then ret (upgradetypes.zero, Some (errorsNew "empty upgrade-info.json"))
      else
        match json_Unmarshal_Plan f with
        | None => ret (upgradetypes.zero, Some (errorOf "json.Unmarshal"))
        | Some upgradePlan =>
            match upgradetypes.ValidateBasic upgradePlan with
            | Some err =>
                ret (upgradetypes.zero,
                     Some (errorWrap "invalid upgrade-info.json content" err))
            | None =>
                let upgradePlan :=
                  if negb disableRecase
                  then {| upgradetypes.Name := ToLower (upgradetypes.Name upgradePlan);
                          upgradetypes.Height := upgradetypes.Height upgradePlan;
                          upgradetypes.Info := upgradetypes.Info upgradePlan |}
                  else upgradePlan in
                ret (upgradePlan, None)
            end
        end
  end.

(** The loop over [upgradeInfo.Binaries]; returns [(repo, version)]. *)
Fixpoint extractLoop (urls : list string) (repo version : string)
  : M (string * string) :=
  match urls with
  | [] => ret (repo, version)
  | url :: rest =>
      emit (Extract url) ;;
      let '(repo, version) := getVersionAndRepoFromUrl url in
      if negb (String.eqb version "") then ret (repo, version)   (* break *)
      else extractLoop rest repo version
  end.

Definition CheckUpdate (currentUpgrade : upgradetypes.Plan) : M bool :=
  fw <- get ;;
  if needsUpdate fw then ret true
  else
    w <- ask ;;
    emit (Stat (filename fw)) ;;
    match os_Stat w (filename fw) with
    | None => ret false                       (* file doesn't exist *)
    | Some modTime =>
        if negb (After modTime (lastModTime fw)) then ret false
        else
          '(info, err) <- parseUpgradeInfoFile (filename fw) (disableRecase fw) ;;
          match err with
          | Some err => panic (errorWrap "failed to parse upgrade info file" err)
          | None =>
              emit (ParseInfo (upgradetypes.Info info)) ;;
              '(repo, version) <-
                match plan_ParseInfo w (upgradetypes.Info info) with
                | Some binaries => extractLoop binaries "" ""
                | None => ret ("", "")
                end ;;
              let callback :=
                {| Name := upgradetypes.Name info;
                   Version := version;
                   Repo := repo;
                   Info := upgradetypes.Info info;
                   Height := upgradetypes.Height info |} in
              let '(callbackJson, err) := json_Marshal callback in
              match err with
              | None => upgradeDetectedCallback callbackJson
              | Some _ => ret tt
              end ;;
              (* file exist but too early in height *)
              '(currentHeight, _) <- checkHeight ;;
              if negb (currentHeight =? 0) && (currentHeight <? upgradetypes.Height info)
              then ret false
              else
                fw <- get ;;
                returned <-
                  (if negb (initialized fw) then
                     (* daemon has restarted *)
                     modify (set_initialized true) ;;
                     modify (set_currentInfo info) ;;
                     modify (set_lastModTime modTime) ;;
                     fw <- get ;;
                     if negb (EqualFold (upgradetypes.Name currentUpgrade)
                                        (upgradetypes.Name (currentInfo fw)))
                     then
                       modify (set_needsUpdate true) ;;
                       upgradeHeightReachedCallback callbackJson ;;
                       ret true
                     else ret false
                   else ret false) ;;
                if returned : bool then ret true
                else
                  fw <- get ;;
                  if upgradetypes.Height info >? upgradetypes.Height (currentInfo fw)
                  then
                    modify (set_currentInfo info) ;;
                    modify (set_lastModTime modTime) ;;
                    modify (set_needsUpdate true) ;;
                    upgradeHeightReachedCallback callbackJson ;;
                    ret true
                  else ret false
          end
    end.

(** What the goroutine of [MonitorUpdate] receives in its [select]: a tick
    of [fw.ticker.C], with the world as it is at that tick, or the closing
    of [fw.cancel]. *)
Inductive Signal : Type :=
| Tick (w : World)
| Cancel.

(** How the goroutine stands after the signals received so far. *)
Inductive LoopState : Type :=
| Done                  (* sent on [done] and returned *)
| Cancelled             (* returned on [fw.cancel] *)
| Crashed (e : error)   (* [CheckUpdate] panicked *)
| Waiting.              (* blocked in [select] *)

(** The [for { select { ... } }] loop of the goroutine. *)
Fixpoint monitorLoop (currentUpgrade : upgradetypes.Plan) (signals : list Signal)
         (fw : fileWatcher) : LoopState * fileWatcher * list Event :=
  match signals with
  | [] => (Waiting, fw, [])
  | Cancel :: _ => (Cancelled, fw, [])
  | Tick w :: rest =>
      let '(o, fw1, t1) := CheckUpdate currentUpgrade w fw in
      match o with
      | Ret true => (Done, fw1, t1)
      | Ret false =>
          let '(l, fw2, t2) := monitorLoop currentUpgrade rest fw1 in
          (l, fw2, (t1 ++ t2)%list)
      | Panic e => (Crashed e, fw1, t1)
      end
  end.

(** [MonitorUpdate]: the assignments made before the goroutine starts
    (the ticker is reset, [cancel] is a new channel, [needsUpdate] is
    cleared), then the goroutine on the signals it receives. *)
Definition MonitorUpdate_arm (fw : fileWatcher) : fileWatcher :=
  set_needsUpdate false fw.

Definition MonitorUpdate (currentUpgrade : upgradetypes.Plan) (signals : list Signal)
           (fw : fileWatcher) : LoopState * fileWatcher * list Event :=
  monitorLoop currentUpgrade signals (MonitorUpdate_arm fw).

(** *** Vocabulary for the properties of one poll *)

Definition result_of {A} (r : outcome A * fileWatcher * list Event) : outcome A := fst (fst r).
Definition state_of {A} (r : outcome A * fileWatcher * list Event) : fileWatcher := snd (fst r).
Definition trace_of {A} (r : outcome A * fileWatcher * list Event) : list Event := snd r.

(** The value a computation returns, [d] if it panics. *)
Definition value_of {A} (d : A) (r : outcome A * fileWatcher * list Event) : A :=
  match result_of r with
  | Ret a => a
  | Panic _ => d
  end.

(** An HTTP POST to the callback endpoint with the given suffix occurs in the
    trace. *)
Definition fires (suffix : string) (w : World) (tr : list Event) : Prop :=
  exists body, In (HttpPost (callbackUrl w suffix) "application/json" body) tr.

Definition fires_detected := fires "/cosmos_notify_upgrade".
Definition fires_heightReached := fires "/cosmos_upgrade_height_reached".

(** No stat, read, info parsing, extraction, probe, subprocess or POST. *)
Definition silent (tr : list Event) : Prop := tr = [].

(** The watched file reads and decodes to the valid plan [info]. *)
Definition decodes (w : World) (fw : fileWatcher) (info : upgradetypes.Plan) : Prop :=
  result_of (parseUpgradeInfoFile (filename fw) (disableRecase fw) w fw)
  = Ret (info, None).

(** The read or the decoding or the validation fails. *)
Definition decode_fails (w : World) (fw : fileWatcher) : Prop :=
  exists p err,
    result_of (parseUpgradeInfoFile (filename fw) (disableRecase fw) w fw)
    = Ret (p, Some err).

(** What [checkHeight] answers: [(height, err)]. *)
Definition probe (w : World) (fw : fileWatcher) : Z * option error :=
  value_of (0, None) (checkHeight w fw).

(** The test of the source: [currentHeight != 0 && currentHeight < info.Height]. *)
Definition too_early (w : World) (fw : fileWatcher) (info : upgradetypes.Plan) : bool :=
  negb (fst (probe w fw) =? 0) && (fst (probe w fw) <? upgradetypes.Height info).

(** [(repo, version)] as the loop over the binaries leaves them. *)
Definition extracted (w : World) (fw : fileWatcher) (info : upgradetypes.Plan)
  : string * string :=
  match plan_ParseInfo w (upgradetypes.Info info) with
  | Some binaries => value_of ("", "") (extractLoop binaries "" "" w fw)
  | None => ("", "")
  end.

Definition extractTrace (w : World) (fw : fileWatcher) (info : upgradetypes.Plan)
  : list Event :=
  match plan_ParseInfo w (upgradetypes.Info info) with
  | Some binaries => trace_of (extractLoop binaries "" "" w fw)
  | None => []
  end.

Definition callbackJsonOf (w : World) (fw : fileWatcher) (info : upgradetypes.Plan)
  : string :=
  json_encode
    {| Name := upgradetypes.Name info;
       Version := snd (extracted w fw info);
       Repo := fst (extracted w fw info);
       Info := upgradetypes.Info info;
       Height := upgradetypes.Height info |}.

Definition notice (w : World) (suffix banner body : string) : list Event :=
  [Println (banner ++ callbackUrl w suffix);
   HttpPost (callbackUrl w suffix) "application/json" body].

(** The trace of a poll that reads the file, up to and including the probe. *)
Definition pollTrace (w : World) (fw : fileWatcher) (info : upgradetypes.Plan)
  : list Event :=
  ([Stat (filename fw); ReadFile (filename fw); ParseInfo (upgradetypes.Info info)]
   ++ extractTrace w fw info
   ++ notice w "/cosmos_notify_upgrade" "upgrade callback to " (callbackJsonOf w fw info)
   ++ trace_of (checkHeight w fw))%list.

Definition reachedTrace (w : World) (fw : fileWatcher) (info : upgradetypes.Plan)
  : list Event :=
  notice w "/cosmos_upgrade_height_reached" "upgrade height callback to "
         (callbackJsonOf w fw info).

(** The watcher after it has adopted [info] read at [modTime]. *)
Definition adopt (info : upgradetypes.Plan) (modTime : Time) (fw : fileWatcher)
  : fileWatcher :=
  set_lastModTime modTime (set_currentInfo info fw).


(** The acceptance rule behind the height gate: a watcher on its first
    poll is ready when the names differ, a later poll when the height
    grows. *)
Definition accepts (currentUpgrade : upgradetypes.Plan) (fw : fileWatcher)
           (info : upgradetypes.Plan) : bool :=
  if initialized fw
  then upgradetypes.Height info >? upgradetypes.Height (currentInfo fw)
  else negb (EqualFold (upgradetypes.Name currentUpgrade) (upgradetypes.Name info)).

(** The faults of the watched file: empty, not the JSON of a plan, a plan
    with no name, a plan whose height is not positive. *)
Inductive bad_content (w : World) (fw : fileWatcher) : Prop :=
| bad_empty :
    os_ReadFile w (filename fw) = Some "" -> bad_content w fw
| bad_json f :
    os_ReadFile w (filename fw) = Some f ->
    json_Unmarshal_Plan f = None -> bad_content w fw
| bad_name f p :
    os_ReadFile w (filename fw) = Some f ->
    json_Unmarshal_Plan f = Some p ->
    upgradetypes.Name p = "" -> bad_content w fw
| bad_height f p :
    os_ReadFile w (filename fw) = Some f ->
    json_Unmarshal_Plan f = Some p ->
    upgradetypes.Height p <= 0 -> bad_content w fw.

(** [n] ticks in a row, the world being [w] at each. *)
Definition ticks (n : nat) (w : World) : list Signal := repeat (Tick w) n.

End Watcher.

(* ================================================================== *)
(** ** Sample data *)

Module Sample.

Definition planA : upgradetypes.Plan :=
  {| upgradetypes.Name := "Upgrade-A"; upgradetypes.Height := 100;
     upgradetypes.Info := "binaries-a" |}.

Definition planB : upgradetypes.Plan :=
  {| upgradetypes.Name := "Upgrade-B"; upgradetypes.Height := 200;
     upgradetypes.Info := "binaries-b" |}.

Definition unnamed : upgradetypes.Plan :=
  {| upgradetypes.Name := ""; upgradetypes.Height := 100;
     upgradetypes.Info := "" |}.

(** The plans as the reader returns them when it lower-cases the name. *)
Definition lowerA : upgradetypes.Plan :=
  {| upgradetypes.Name := "upgrade-a"; upgradetypes.Height := 100;
     upgradetypes.Info := "binaries-a" |}.

Definition lowerB : upgradetypes.Plan :=
  {| upgradetypes.Name := "upgrade-b"; upgradetypes.Height := 200;
     upgradetypes.Info := "binaries-b" |}.

(** A decoder that knows three files and one form of status answer. *)
Definition codec : Json :=
  {| json_Unmarshal_Plan := fun f =>
       if String.eqb f "file-a" then Some planA
       else if String.eqb f "file-b" then Some planB
       else if String.eqb f "file-unnamed" then Some unnamed
       else None;
     json_Unmarshal_response := fun out =>
       if String.prefix "height " out
       then Some (String.substring 7 (String.length out - 7) out)
       else None;
     json_encode := fun c => Name c ++ " " ++ Version c ++ " " ++ Repo c |}.

Definition env (key : string) : string :=
  if String.eqb key "CALLBACK_API" then "http://deploy.local"
  else if String.eqb key "NODE_ID" then "node-1"
  else if String.eqb key "DEPLOYMENT_ID" then "dep-7"
  else "".

(** The world in which the stat of the watched file answers [stat], its
    read [file], and the status command [status]. *)
Definition world (stat : option Time) (file status : option string) : World :=
  {| os_Args0 := "/usr/bin/cosmovisor";
     os_Getenv := env;
     os_Stat := fun _ => stat;
     os_ReadFile := fun _ => file;
     exec_Output := fun _ _ => status;
     plan_ParseInfo := fun _ =>
       Some ["https://github.com/org/repo/releases/download/v1.2.3/bin"] |}.

(** A watcher as constructed, one that has accepted [lowerA] at time 10
    and waits, and one that has accepted it and is ready. *)
Definition fresh : fileWatcher :=
  newUpgradeFileWatcher "/home/node/data/upgrade-info.json" "/home/node/bin/appd"
                        300 false.

Definition waiting : fileWatcher :=
  set_lastModTime 10 (set_currentInfo lowerA (set_initialized true fresh)).

Definition ready : fileWatcher := set_needsUpdate true waiting.

Definition bareDigitsUrl : string :=
  "https://github.com/org/repo/releases/download/1.2.3/bin".

End Sample.

(* ================================================================== *)
(** ** Vocabulary for the further properties *)


(** The HTTP POSTs of a trace, in order. *)
Definition is_post (e : Event) : bool :=
  match e with
  | HttpPost _ _ _ => true
  | _ => false
  end.

Definition posts (tr : list Event) : list Event := filter is_post tr.

(** The subprocesses of a trace, in order. *)
Definition is_exec (e : Event) : bool :=
  match e with
  | Exec _ _ => true
  | _ => false
  end.


(** The plan passes [ValidateBasic]. *)
Definition valid_plan (p : upgradetypes.Plan) : Prop :=
  upgradetypes.Name p <> "" /\ 0 < upgradetypes.Height p.

(** What holds of a watcher from its construction on. *)
Record consistent (fw : fileWatcher) : Prop := {
  cons_blank :
    initialized fw = false ->
    currentInfo fw = upgradetypes.zero /\ lastModTime fw = zeroTime /\
    needsUpdate fw = false;
  cons_plan :
    initialized fw = true ->
    valid_plan (currentInfo fw) /\ zeroTime < lastModTime fw;
  cons_case :
    initialized fw = true -> disableRecase fw = false ->
    ToLower (upgradetypes.Name (currentInfo fw)) = upgradetypes.Name (currentInfo fw)
}.

(** The URL has a version tag. *)
Definition versioned (url : string) : bool :=
  negb (String.eqb (snd (getVersionAndRepoFromUrl url)) "").

(** A byte occurs in a string. *)
Fixpoint occurs (c : ascii) (s : string) : bool :=
  match s with
  | EmptyString => false
  | String a s' => Ascii.eqb a c || occurs c s'
  end.

(** The URLs the loop over the binaries looks at: up to and including the
    first one with a version tag. *)
Fixpoint scanned (urls : list string) : list string :=
  match urls with
  | [] => []
  | url :: rest => if versioned url then [url] else url :: scanned rest
  end.

(** The segments the loop of the scanner looks at: up to and including the
    first version tag. *)
Fixpoint upto_tag (segs : list string) : list string :=
  match segs with
  | [] => []
  | seg :: rest => if matches versionPattern seg then [seg] else seg :: upto_tag rest
  end.

(** The plan as the reader hands it out: with its name in lower case unless
    the watcher was told not to. *)
Definition recased (disable : bool) (p : upgradetypes.Plan) : upgradetypes.Plan :=
  if disable then p
  else {| upgradetypes.Name := ToLower (upgradetypes.Name p);
          upgradetypes.Height := upgradetypes.Height p;
          upgradetypes.Info := upgradetypes.Info p |}.

Section MoreVocabulary.

Context {codec : Json}.

(** The supervisor arms the watcher again and again: each cycle is one call
    of [MonitorUpdate], with the running upgrade and the signals its
    goroutine receives. *)
Definition cycles (cs : list (upgradetypes.Plan * list Signal)) (fw : fileWatcher)
  : fileWatcher :=
  fold_left (fun fw c => snd (fst (MonitorUpdate (fst c) (snd c) fw))) cs fw.

(** In the world of the tick the watched file is absent or not newer than
    [t]. *)
Definition not_newer (name : string) (t : Time) (s : Signal) : Prop :=
  match s with
  | Tick w =>
      match os_Stat w name with
      | Some modTime => modTime <= t
      | None => True
      end
  | Cancel => True
  end.

End MoreVocabulary.

(* ================================================================== *)
(** * Properties *)

(** ** The matcher against the language of a regex *)

Module RegexpFacts.

Ltac inv H := inversion H; subst; clear H.

(** Splits a hypothesis [u ++ v = c :: s] on whether [u] is empty. *)
Ltac split_app :=
  match goal with
  | H : (?u ++ ?v)%list = [] |- _ =>
      apply app_eq_nil in H; destruct H; subst
  | H : (?u ++ ?v)%list = _ :: _ |- _ =>
      destruct u; simpl in H; [subst | injection H as ? ?; subst]
  end.

Lemma lang_cons_app r1 r2 c u v :
  lang r1 (c :: u) -> lang r2 v -> lang (Cat r1 r2) (c :: u ++ v)%list.
Proof.
  intros Hu Hv. change (c :: u ++ v)%list with ((c :: u) ++ v)%list.
  now constructor.
Qed.

Lemma lang_nil_app r1 r2 v :
  lang r1 [] -> lang r2 v -> lang (Cat r1 r2) v.
Proof.
  intros Hu Hv. change v with ([] ++ v)%list. now constructor.
Qed.

Lemma nullable_lang r : nullable r = true <-> lang r [].
Proof.
  induction r; simpl; split; intro H;
    try discriminate; try (now constructor); try (now inversion H).
  - apply andb_true_iff in H as [H1 H2].
    apply lang_nil_app; [now apply IHr1 | now apply IHr2].
  - inv H. split_app.
    apply andb_true_iff; split; [now apply IHr1 | now apply IHr2].
  - apply orb_true_iff in H as [H | H].
    + apply L_alt_l; now apply IHr1.
    + apply L_alt_r; now apply IHr2.
  - apply orb_true_iff.
    inv H; [left; now apply IHr1 | right; now apply IHr2].
Qed.

(** A non-empty word of [Star r] starts with a non-empty word of [r]. *)
Lemma star_cons_inv r c s :
  lang (Star r) (c :: s) ->
  exists u v, s = (u ++ v)%list /\ lang r (c :: u) /\ lang (Star r) v.
Proof.
  intro H.
  remember (Star r) as sr eqn:Hsr; remember (c :: s) as word eqn:Hw.
  revert c s Hw.
  induction H as [| | | | | |r0 u v Hu _ Hv IHv]; intros x t Hw; try discriminate.
  injection Hsr as ->.
  destruct u as [|a u'].
  - simpl in Hw. now apply IHv.
  - simpl in Hw. injection Hw as Ha Ht. subst.
    now exists u', v.
Qed.

Lemma deriv_lang c r : forall s, lang (deriv c r) s <-> lang r (c :: s).
Proof.
  induction r as [| |p|r1 IH1 r2 IH2|r1 IH1 r2 IH2|r1 IH1]; intro s; simpl.
  - split; intro H; inversion H.
  - split; intro H; inversion H.
  - destruct (p c) eqn:Hp; split; intro H.
    + inv H. now constructor.
    + inv H. constructor.
    + inversion H.
    + inv H. congruence.
  - assert (Hleft : forall w, lang (Cat (deriv c r1) r2) w -> lang (Cat r1 r2) (c :: w)).
    { intros w H. inv H. apply lang_cons_app; [now apply IH1 | assumption]. }
    assert (Hsplit : forall w, lang (Cat r1 r2) (c :: w) ->
              lang (Cat (deriv c r1) r2) w \/ (lang r1 [] /\ lang r2 (c :: w))).
    { intros w H. inv H. split_app.
      - now right.
      - left. constructor; [now apply IH1 | assumption]. }
    destruct (nullable r1) eqn:Hn; split; intro H.
    + inv H.
      * now apply Hleft.
      * apply lang_nil_app; [now apply nullable_lang | now apply IH2].
    + destruct (Hsplit _ H) as [Hl | [_ Hr]].
      * now apply L_alt_l.
      * apply L_alt_r. now apply IH2.
    + now apply Hleft.
    + destruct (Hsplit _ H) as [Hl | [Hnil _]]; [assumption |].
      apply nullable_lang in Hnil. congruence.
  - split; intro H; inv H.
    + apply L_alt_l. now apply IH1.
    + apply L_alt_r. now apply IH2.
    + apply L_alt_l. now apply IH1.
    + apply L_alt_r. now apply IH2.
  - split; intro H.
    + inv H. change (c :: u ++ v)%list with ((c :: u) ++ v)%list.
      constructor; [now apply IH1 | assumption].
    + apply star_cons_inv in H as (u & v & -> & Hu & Hv).
      constructor; [now apply IH1 | assumption].
Qed.

Lemma prefix_match_lang s : forall r,
  prefix_match r s = true <-> exists u v, s = (u ++ v)%list /\ lang r u.
Proof.
  induction s as [|c s IH]; intro r; simpl.
  - rewrite orb_false_r, nullable_lang. split.
    + intro H. now exists [], [].
    + intros (u & v & Heq & Hu). symmetry in Heq. split_app. assumption.
  - rewrite orb_true_iff, nullable_lang, IH. split.
    + intros [H | (u & v & -> & Hu)].
      * now exists [], (c :: s).
      * exists (c :: u), v. split; [reflexivity | now apply deriv_lang].
    + intros (u & v & Heq & Hu). symmetry in Heq. split_app.
      * now left.
      * right. eexists _, v. split; [reflexivity | now apply deriv_lang].
Qed.

(** Any number of bytes of a class. *)
Lemma star_class p u : lang (Star (Class p)) u <-> forallb p u = true.
Proof.
  split.
  - intro H. remember (Star (Class p)) as sr eqn:Hsr.
    induction H as [| | | | | |r0 a b Ha _ Hb IHb]; try discriminate.
    + reflexivity.
    + injection Hsr as ->. inv Ha. simpl.
      apply andb_true_iff. split; [assumption | now apply IHb].
  - induction u as [|a u IH]; simpl; intro H.
    + constructor.
    + apply andb_true_iff in H as [Ha Hu].
      change (a :: u) with ([a] ++ u)%list.
      constructor; [now constructor | now apply IH].
Qed.

(** One or more bytes of a class. *)
Lemma plus_class p u :
  lang (Plus (Class p)) u <-> u <> [] /\ forallb p u = true.
Proof.
  unfold Plus. split.
  - intro H. inv H.
    match goal with H : lang (Class _) _ |- _ => inv H end.
    match goal with H : lang (Star _) _ |- _ => apply star_class in H end.
    simpl. split; [discriminate | apply andb_true_iff; now split].
  - intros [Hne H]. destruct u as [|a u]; [congruence |].
    simpl in H. apply andb_true_iff in H as [Ha Hu].
    change (a :: u) with ([a] ++ u)%list.
    constructor; [now constructor | now apply star_class].
Qed.

Lemma cat_class p r u :
  lang (Cat (Class p) r) u <-> exists c v, u = c :: v /\ p c = true /\ lang r v.
Proof.
  split.
  - intro H. inv H.
    match goal with H : lang (Class _) _ |- _ => inv H end.
    simpl. eauto.
  - intros (c & v & -> & Hc & Hv).
    change (c :: v) with ([c] ++ v)%list.
    constructor; [now constructor | assumption].
Qed.

Lemma cat_inv r1 r2 u :
  lang (Cat r1 r2) u <-> exists a b, u = (a ++ b)%list /\ lang r1 a /\ lang r2 b.
Proof.
  split.
  - intro H. inv H. eauto.
  - intros (a & b & -> & Ha & Hb). now constructor.
Qed.

End RegexpFacts.

(** ** The URL scanner *)

Section Scanner.

Import RegexpFacts.

Lemma scan_githubIdx segs : forall idx st,
  (forall seg, In seg segs -> EqualFold seg "github.com" = false) ->
  githubIdx (scanSegments segs idx st) = githubIdx st.
Proof.
  induction segs as [|str rest IH]; intros idx st Hno; simpl; [reflexivity |].
  rewrite (Hno str (or_introl eq_refl)).
  destruct (_ && _).
  - reflexivity.
  - rewrite IH; [reflexivity | intros seg Hin; apply Hno; now right].
Qed.

Lemma scan_ver segs : forall idx st,
  ver (scanSegments segs idx st)
  = match find (matches versionPattern) segs with
    | Some s => s
    | None => ver st
    end.
Proof.
  induction segs as [|str rest IH]; intros idx st; simpl; [reflexivity |].
  unfold matches at 1. simpl.
  destruct (_ && _); [reflexivity | now rewrite IH].
Qed.

Lemma scan_stop pre seg post post' : forall idx st,
  matches versionPattern seg = true ->
  scanSegments (pre ++ seg :: post) idx st = scanSegments (pre ++ seg :: post') idx st.
Proof.
  induction pre as [|str rest IH]; intros idx st Hm; simpl.
  - unfold matches in Hm. simpl in Hm. now rewrite Hm.
  - destruct (_ && _); [reflexivity | now apply IH].
Qed.

Lemma lang_digits_dot r u :
  lang (Cat (Plus (Class isDigit)) (Cat (Class is_dot) r)) u <->
  exists d v, u = (d ++ "."%char :: v)%list /\ digits d /\ lang r v.
Proof.
  rewrite cat_inv. split.
  - intros (a & b & -> & Ha & Hb).
    apply plus_class in Ha. apply cat_class in Hb as (c & v & -> & Hc & Hv).
    apply Ascii.eqb_eq in Hc as ->. now exists a, v.
  - intros (d & v & -> & Hd & Hv).
    exists d, ("."%char :: v). repeat split.
    + now apply plus_class.
    + apply cat_class. now exists "."%char, v.
Qed.

Lemma matches_versionPattern seg :
  matches versionPattern seg = true <-> VersionTag seg.
Proof.
  unfold matches, MatchString, VersionTag; simpl bol; simpl body; cbv iota.
  rewrite andb_true_r, prefix_match_lang. split.
  - intros (u & rest & Heq & Hu).
    apply cat_class in Hu as (c & v & -> & Hc & Hv).
    apply lang_digits_dot in Hv as (d1 & v1 & -> & Hd1 & Hv1).
    apply lang_digits_dot in Hv1 as (d2 & v2 & -> & Hd2 & Hd3).
    apply plus_class in Hd3.
    exists c, d1, d2, v2, rest. rewrite Heq. simpl.
    repeat (rewrite <- app_assoc; simpl). split; [reflexivity | unfold digits in *; tauto].
  - intros (c & d1 & d2 & d3 & rest & Heq & Hc & Hd1 & Hd2 & Hd3).
    exists (c :: d1 ++ "."%char :: d2 ++ "."%char :: d3)%list, rest. split.
    + rewrite Heq. simpl. repeat (rewrite <- app_assoc; simpl). reflexivity.
    + apply cat_class. exists c, (d1 ++ "."%char :: d2 ++ "."%char :: d3)%list.
      repeat split; [assumption |].
      apply lang_digits_dot. exists d1, (d2 ++ "."%char :: d3)%list.
      repeat split; try apply Hd1.
      apply lang_digits_dot. exists d2, d3.
      repeat split; try apply Hd2. now apply plus_class.
Qed.

Lemma matches_needs_v c rest :
  is_vV c = false -> matches versionPattern (String c rest) = false.
Proof.
  intro Hc. destruct (matches versionPattern (String c rest)) eqn:Hm; [| reflexivity].
  apply matches_versionPattern in Hm as (c' & d1 & d2 & d3 & tl & Heq & Hc' & _).
  simpl in Heq. injection Heq as -> _. congruence.
Qed.

(** C7. The release URL of the specification gives the repository
    "https://github.com/org/repo" and the version "v1.2.3"; and a URL none
    of whose segments equals "github.com", case-insensitively, gives the
    empty repository, whatever its version. *)
Theorem getVersionAndRepoFromUrl_repo :
  getVersionAndRepoFromUrl "https://github.com/org/repo/releases/download/v1.2.3/bin"
  = ("https://github.com/org/repo", "v1.2.3")
  /\
  forall url,
    (forall seg, In seg (Split url "/") -> EqualFold seg "github.com" = false) ->
    fst (getVersionAndRepoFromUrl url) = "".
Proof.
  split; [vm_compute; reflexivity |].
  intros url Hno. unfold getVersionAndRepoFromUrl. cbn [fst].
  now rewrite scan_githubIdx.
Qed.

(** C8, amended. The version is the first segment, from the left, that the
    pattern of the source matches, and the scan stops there: what follows
    that segment has no influence on the result.  The pattern asks for
    [v] or [V], then digits.digits.digits, then anything; a segment that
    does not start with [v] or [V] is no version. *)
Theorem getVersionAndRepoFromUrl_version :
  (forall url,
     snd (getVersionAndRepoFromUrl url) = firstMatch versionPattern (Split url "/"))
  /\ (forall seg, matches versionPattern seg = true <-> VersionTag seg)
  /\ (forall url1 url2 pre seg post1 post2,
        Split url1 "/" = (pre ++ seg :: post1)%list ->
        Split url2 "/" = (pre ++ seg :: post2)%list ->
        matches versionPattern seg = true ->
        getVersionAndRepoFromUrl url1 = getVersionAndRepoFromUrl url2)
  /\ matches versionPattern "" = false
  /\ (forall c rest, is_vV c = false -> matches versionPattern (String c rest) = false).
Proof.
  split; [| split; [| split; [| split]]].
  - intro url. unfold getVersionAndRepoFromUrl, firstMatch. cbn [snd].
    now rewrite scan_ver.
  - apply matches_versionPattern.
  - intros url1 url2 pre seg post1 post2 H1 H2 Hm.
    unfold getVersionAndRepoFromUrl. rewrite H1, H2.
    now rewrite (scan_stop pre seg post1 post2).
  - reflexivity.
  - apply matches_needs_v.
Qed.

End Scanner.


(** ** The decision routine *)

Section WatcherFacts.

Context {codec : Json}.

Ltac run := cbv [bind ask get emit ret modify panic].
Ltac step H := rewrite H; cbv beta iota zeta; cbn [negb].
Ltac tidy := cbn [app]; rewrite ?app_nil_r, <- ?app_assoc; reflexivity.

(** The reader, the extraction loop and the probe leave the watcher as it
    is and do not panic. *)
Lemma parse_run f d w fw :
  exists r, parseUpgradeInfoFile f d w fw = (Ret r, fw, [ReadFile f]).
Proof.
  unfold parseUpgradeInfoFile; run.
  destruct (os_ReadFile w f) as [content|]; [| eauto].
  destruct (_ =? 0); [eauto |].
  destruct (json_Unmarshal_Plan content) as [p|]; [| eauto].
  destruct (upgradetypes.ValidateBasic p); eauto.
Qed.

Lemma extract_run urls : forall r v w fw,
  exists a t, extractLoop urls r v w fw = (Ret a, fw, t).
Proof.
  induction urls as [|url rest IH]; intros r v w fw; cbn [extractLoop].
  - unfold ret. eauto.
  - run. destruct (getVersionAndRepoFromUrl url) as [r1 v1].
    destruct (negb _).
    + eauto.
    + destruct (IH r1 v1 w fw) as (a & t & ->). eauto.
Qed.

Lemma checkHeight_run w fw :
  exists r t, checkHeight w fw = (Ret r, fw, t).
Proof.
  unfold checkHeight; run.
  destruct (HasSuffix _ _); [eauto |].
  destruct (exec_Output _ _ _) as [out|]; [| eauto].
  destruct (json_Unmarshal_response out) as [h|]; [| eauto].
  destruct (_ =? _)%string; [eauto |].
  destruct (Strconv.ParseInt h). eauto.
Qed.

Lemma gtb_irrefl (x : Z) : (x >? x) = false.
Proof. rewrite Z.gtb_ltb. apply Z.ltb_irrefl. Qed.

(** One poll by a watcher that is not yet ready, on a file that exists,
    is newer than the last accepted one and decodes to [info]. *)
Lemma CheckUpdate_poll cur w fw modTime info :
  needsUpdate fw = false ->
  os_Stat w (filename fw) = Some modTime ->
  After modTime (lastModTime fw) = true ->
  decodes w fw info ->
  CheckUpdate cur w fw =
    if too_early w fw info then (Ret false, fw, pollTrace w fw info)
    else if negb (initialized fw) then
      if negb (EqualFold (upgradetypes.Name cur) (upgradetypes.Name info))
      then (Ret true,
            set_needsUpdate true (adopt info modTime (set_initialized true fw)),
            (pollTrace w fw info ++ reachedTrace w fw info)%list)
      else (Ret false, adopt info modTime (set_initialized true fw),
            pollTrace w fw info)
    else if upgradetypes.Height info >? upgradetypes.Height (currentInfo fw)
      then (Ret true, set_needsUpdate true (adopt info modTime fw),
            (pollTrace w fw info ++ reachedTrace w fw info)%list)
      else (Ret false, fw, pollTrace w fw info).
Proof.
  intros Hn Hstat Hafter Hdec.
  unfold decodes, result_of in Hdec.
  unfold too_early, probe, pollTrace, reachedTrace, callbackJsonOf,
    extracted, extractTrace, value_of, result_of, trace_of, adopt.
  destruct (parse_run (filename fw) (disableRecase fw) w fw) as (r & Hp).
  rewrite Hp in Hdec. simpl in Hdec. injection Hdec as ->.
  destruct (checkHeight_run w fw) as ([h e] & th & Hh).
  unfold CheckUpdate, upgradeDetectedCallback, upgradeHeightReachedCallback,
    json_Marshal, notice; run.
  step Hn. step Hstat. step Hafter. step Hp.
  destruct (plan_ParseInfo w (upgradetypes.Info info)) as [binaries|].
  - destruct (extract_run binaries "" "" w fw) as ([rp vs] & te & He).
    step He. step Hh. cbn [fst snd].
    destruct (negb (h =? 0) && (h <? upgradetypes.Height info)); [tidy |].
    destruct (initialized fw) eqn:Hi; cbn [negb].
    + destruct (_ >? _); tidy.
    + cbn [set_initialized set_currentInfo set_lastModTime currentInfo initialized].
      destruct (EqualFold _ _); cbn [negb]; [rewrite gtb_irrefl |]; tidy.
  - step Hh. cbn [fst snd].
    destruct (negb (h =? 0) && (h <? upgradetypes.Height info)); [tidy |].
    destruct (initialized fw) eqn:Hi; cbn [negb].
    + destruct (_ >? _); tidy.
    + cbn [set_initialized set_currentInfo set_lastModTime currentInfo initialized].
      destruct (EqualFold _ _); cbn [negb]; [rewrite gtb_irrefl |]; tidy.
Qed.

Lemma CheckUpdate_ready cur w fw :
  needsUpdate fw = true -> CheckUpdate cur w fw = (Ret true, fw, []).
Proof. intro Hn. unfold CheckUpdate; run. now rewrite Hn. Qed.

Lemma CheckUpdate_absent cur w fw :
  needsUpdate fw = false -> os_Stat w (filename fw) = None ->
  CheckUpdate cur w fw = (Ret false, fw, [Stat (filename fw)]).
Proof. intros Hn Hs. unfold CheckUpdate; run. step Hn. now step Hs. Qed.

Lemma CheckUpdate_stale cur w fw modTime :
  needsUpdate fw = false -> os_Stat w (filename fw) = Some modTime ->
  After modTime (lastModTime fw) = false ->
  CheckUpdate cur w fw = (Ret false, fw, [Stat (filename fw)]).
Proof.
  intros Hn Hs Ha. unfold CheckUpdate; run. step Hn. step Hs. now step Ha.
Qed.

Lemma CheckUpdate_bad cur w fw modTime p err :
  needsUpdate fw = false -> os_Stat w (filename fw) = Some modTime ->
  After modTime (lastModTime fw) = true ->
  result_of (parseUpgradeInfoFile (filename fw) (disableRecase fw) w fw)
    = Ret (p, Some err) ->
  CheckUpdate cur w fw =
    (Panic (errorWrap "failed to parse upgrade info file" err), fw,
     [Stat (filename fw); ReadFile (filename fw)]).
Proof.
  intros Hn Hs Ha Hbad. unfold result_of in Hbad.
  destruct (parse_run (filename fw) (disableRecase fw) w fw) as (r & Hp).
  rewrite Hp in Hbad. simpl in Hbad. injection Hbad as ->.
  unfold CheckUpdate; run. step Hn. step Hs. step Ha. now step Hp.
Qed.

(** Each fault of the file makes the reader return an error. *)
Lemma bad_content_fails w fw : bad_content w fw -> decode_fails w fw.
Proof.
  unfold decode_fails, result_of, parseUpgradeInfoFile; run.
  intros [He | f Hf Hj | f p Hf Hj Hname | f p Hf Hj Hheight].
  - rewrite He. simpl. eauto.
  - rewrite Hf. destruct (_ =? 0); [simpl; eauto |]. rewrite Hj. simpl. eauto.
  - rewrite Hf. destruct (_ =? 0); [simpl; eauto |]. rewrite Hj.
    unfold upgradetypes.ValidateBasic. rewrite Hname. simpl. eauto.
  - rewrite Hf. destruct (_ =? 0); [simpl; eauto |]. rewrite Hj.
    unfold upgradetypes.ValidateBasic.
    destruct (_ =? _)%string; [simpl; eauto |].
    apply Z.leb_le in Hheight. rewrite Hheight. simpl. eauto.
Qed.




Lemma fires_reached w fw info pre :
  fires_heightReached w (pre ++ reachedTrace w fw info).
Proof.
  exists (callbackJsonOf w fw info). apply in_or_app. right.
  unfold reachedTrace, notice. simpl. auto.
Qed.

Lemma fires_poll w fw info : fires_detected w (pollTrace w fw info).
Proof.
  exists (callbackJsonOf w fw info). unfold pollTrace, notice.
  apply in_or_app. right. apply in_or_app. right. simpl. auto.
Qed.

(** What a poll by a watcher that is not ready can be. *)
Lemma CheckUpdate_cases cur w fw :
  needsUpdate fw = false ->
  CheckUpdate cur w fw = (Ret false, fw, [Stat (filename fw)])
  \/ (exists err,
       CheckUpdate cur w fw =
         (Panic (errorWrap "failed to parse upgrade info file" err), fw,
          [Stat (filename fw); ReadFile (filename fw)]))
  \/ (exists modTime info,
       os_Stat w (filename fw) = Some modTime /\
       After modTime (lastModTime fw) = true /\
       decodes w fw info).
Proof.
  intro Hn.
  destruct (os_Stat w (filename fw)) as [modTime|] eqn:Hs;
    [| left; now apply CheckUpdate_absent].
  destruct (After modTime (lastModTime fw)) eqn:Ha;
    [| left; now apply CheckUpdate_stale with modTime].
  destruct (parse_run (filename fw) (disableRecase fw) w fw) as ([p [err|]] & Hp).
  - right; left. exists err. apply CheckUpdate_bad with modTime p; try assumption.
    unfold result_of. now rewrite Hp.
  - right; right. exists modTime, p. repeat split; try assumption.
    unfold decodes, result_of. now rewrite Hp.
Qed.

Lemma CheckUpdate_starts_with_stat cur w fw :
  needsUpdate fw = false ->
  exists t, trace_of (CheckUpdate cur w fw) = Stat (filename fw) :: t.
Proof.
  intro Hn.
  destruct (CheckUpdate_cases cur w fw Hn)
    as [-> | [(err & ->) | (modTime & info & Hs & Ha & Hd)]];
    [simpl; eauto | simpl; eauto |].
  rewrite (CheckUpdate_poll cur w fw modTime info Hn Hs Ha Hd).
  unfold pollTrace.
  destruct (too_early w fw info); [simpl; eauto |].
  destruct (negb (initialized fw)); [destruct (negb _) | destruct (_ >? _)];
    simpl; eauto.
Qed.

(** Polls that leave the watcher as it is repeat themselves. *)
Lemma monitorLoop_stuck cur w fw tr :
  CheckUpdate cur w fw = (Ret false, fw, tr) ->
  forall n, monitorLoop cur (ticks n w) fw = (Waiting, fw, List.concat (repeat tr n)).
Proof.
  intros Hc n. induction n as [|n IH]; simpl; [reflexivity |].
  rewrite Hc. unfold ticks in IH. now rewrite IH.
Qed.

(** *** The claims about [CheckUpdate] *)

Ltac project :=
  unfold result_of, state_of, trace_of, adopt;
  cbn [fst snd set_needsUpdate set_lastModTime set_currentInfo set_initialized
       currentInfo lastModTime needsUpdate initialized filename].

Ltac project_in H :=
  unfold result_of, state_of, trace_of, adopt in H;
  cbn [fst snd set_needsUpdate set_lastModTime set_currentInfo set_initialized
       currentInfo lastModTime needsUpdate initialized filename] in H.

(** C1. An initialized watcher that is not ready polls a file that exists,
    is newer than [lastModTime] and decodes to the valid plan [info], and
    the height gate does not apply.  If the height of [info] exceeds the
    accepted one, the plan is adopted ([currentInfo] and [lastModTime]
    updated), [needsUpdate] is set, "height reached" is posted and the
    poll reports ready; otherwise the poll reports not ready and leaves
    the watcher, hence [currentInfo], as it was. *)
Theorem CheckUpdate_initialized cur w fw modTime info :
  initialized fw = true ->
  needsUpdate fw = false ->
  os_Stat w (filename fw) = Some modTime ->
  After modTime (lastModTime fw) = true ->
  decodes w fw info ->
  too_early w fw info = false ->
  let r := CheckUpdate cur w fw in
  (upgradetypes.Height info > upgradetypes.Height (currentInfo fw) ->
     result_of r = Ret true /\
     currentInfo (state_of r) = info /\
     lastModTime (state_of r) = modTime /\
     needsUpdate (state_of r) = true /\
     fires_heightReached w (trace_of r))
  /\
  (upgradetypes.Height info <= upgradetypes.Height (currentInfo fw) ->
     result_of r = Ret false /\
     currentInfo (state_of r) = currentInfo fw /\
     state_of r = fw).
Proof.
  intros Hi Hn Hs Ha Hd Hg r. subst r.
  rewrite (CheckUpdate_poll cur w fw modTime info Hn Hs Ha Hd), Hg, Hi.
  cbn [negb]. split; intro Hh.
  - apply Z.gt_lt, Z.ltb_lt in Hh. rewrite Z.gtb_ltb, Hh.
    project. repeat split. apply fires_reached.
  - apply Z.leb_le in Hh. rewrite Z.gtb_ltb, Z.ltb_antisym, Hh.
    project. now repeat split.
Qed.


(** C3. A watcher whose [needsUpdate] is set reports ready at once: no
    stat, no read, no extraction, no probe, no callback (the trace is
    empty), and the watcher is left as it is, so that polling again, in
    any world, gives the same. *)
Theorem CheckUpdate_needsUpdate_short_circuit cur w fw :
  needsUpdate fw = true ->
  let r := CheckUpdate cur w fw in
  result_of r = Ret true /\
  silent (trace_of r) /\
  state_of r = fw /\
  (forall cur' w', CheckUpdate cur' w' (state_of r) = r).
Proof.
  intros Hn r. subst r. rewrite (CheckUpdate_ready cur w fw Hn). project.
  repeat split. intros cur' w'. now apply CheckUpdate_ready.
Qed.


(** C6, amended. A watcher that is not ready finds the file present and
    newer than [lastModTime], and its content fails to decode or to
    validate (empty file, malformed JSON, empty name, height not
    positive): the poll panics, with the error of the reader wrapped,
    after the stat and the read and nothing else. *)
Theorem CheckUpdate_bad_file_panics cur w fw modTime :
  needsUpdate fw = false ->
  os_Stat w (filename fw) = Some modTime ->
  After modTime (lastModTime fw) = true ->
  decode_fails w fw \/ bad_content w fw ->
  exists err,
    CheckUpdate cur w fw =
      (Panic (errorWrap "failed to parse upgrade info file" err), fw,
       [Stat (filename fw); ReadFile (filename fw)]).
Proof.
  intros Hn Hs Ha Hbad.
  assert (Hf : decode_fails w fw)
    by (destruct Hbad; [assumption | now apply bad_content_fails]).
  destruct Hf as (p & err & Hp).
  exists err. now apply CheckUpdate_bad with modTime p.
Qed.

(** C9. On its first poll (not initialized, not ready; file present, newer,
    valid; height gate passed) the watcher sets [initialized] and
    overwrites [currentInfo] and [lastModTime] with the plan and the
    modification time of the file, also when the names are equal and the
    poll reports not ready: the watcher is then not what it was. *)
Theorem first_poll_mutates_watcher cur w fw modTime info :
  initialized fw = false ->
  needsUpdate fw = false ->
  os_Stat w (filename fw) = Some modTime ->
  After modTime (lastModTime fw) = true ->
  decodes w fw info ->
  too_early w fw info = false ->
  let r := CheckUpdate cur w fw in
  (initialized (state_of r) = true /\
   currentInfo (state_of r) = info /\
   lastModTime (state_of r) = modTime /\
   lastModTime (state_of r) <> lastModTime fw)
  /\
  (EqualFold (upgradetypes.Name cur) (upgradetypes.Name info) = true ->
     result_of r = Ret false /\
     state_of r = adopt info modTime (set_initialized true fw) /\
     state_of r <> fw).
Proof.
  intros Hi Hn Hs Ha Hd Hg r. subst r.
  assert (Hne : modTime <> lastModTime fw).
  { unfold After in Ha. apply Z.gtb_lt in Ha. lia. }
  rewrite (CheckUpdate_poll cur w fw modTime info Hn Hs Ha Hd), Hg, Hi.
  cbn [negb]. split.
  - destruct (EqualFold _ _); cbn [negb]; project; now repeat split.
  - intros ->. cbn [negb]. project. repeat split.
    intro Heq. apply (f_equal initialized) in Heq. cbn in Heq. congruence.
Qed.

(** C10. A poll changes [lastModTime] only when it adopts a plan: on the
    first poll, or when the height exceeds the accepted one.  A poll that
    reads a newer file and reports not ready, because the gate is closed
    or because, after initialization, the height does not exceed the
    accepted one, leaves the watcher, hence [lastModTime], as it was; so
    every later tick on the same file stats it, reads it and posts
    "upgrade detected" again. *)
Theorem lastModTime_only_on_adoption cur w fw :
  let r := CheckUpdate cur w fw in
  (lastModTime (state_of r) <> lastModTime fw ->
     exists info,
       decodes w fw info /\
       currentInfo (state_of r) = info /\
       os_Stat w (filename fw) = Some (lastModTime (state_of r)) /\
       (initialized fw = false \/
        upgradetypes.Height info > upgradetypes.Height (currentInfo fw)))
  /\
  (forall modTime info,
     needsUpdate fw = false ->
     os_Stat w (filename fw) = Some modTime ->
     After modTime (lastModTime fw) = true ->
     decodes w fw info ->
     too_early w fw info = true \/
     (initialized fw = true /\
      upgradetypes.Height info <= upgradetypes.Height (currentInfo fw)) ->
     r = (Ret false, fw, pollTrace w fw info) /\
     In (Stat (filename fw)) (pollTrace w fw info) /\
     In (ReadFile (filename fw)) (pollTrace w fw info) /\
     fires_detected w (pollTrace w fw info) /\
     forall n,
       monitorLoop cur (ticks n w) fw
       = (Waiting, fw, List.concat (repeat (pollTrace w fw info) n))).
Proof.
  intro r. subst r. split.
  - intro Hchg.
    destruct (needsUpdate fw) eqn:Hn.
    { rewrite (CheckUpdate_ready cur w fw Hn) in Hchg. now project_in Hchg. }
    destruct (CheckUpdate_cases cur w fw Hn)
      as [Hc | [(err & Hc) | (modTime & info & Hs & Ha & Hd)]];
      try (rewrite Hc in Hchg; now project_in Hchg).
    exists info. revert Hchg.
    rewrite (CheckUpdate_poll cur w fw modTime info Hn Hs Ha Hd).
    destruct (too_early w fw info); [project; congruence |].
    destruct (initialized fw); cbn [negb].
    + destruct (_ >? _) eqn:Hgt; project; [| congruence].
      intros _. repeat split; try assumption. right. now apply Z.gtb_gt.
    + destruct (EqualFold _ _); cbn [negb]; project; intros _;
        repeat split; try assumption; now left.
  - intros modTime info Hn Hs Ha Hd Hcause.
    assert (Hc : CheckUpdate cur w fw = (Ret false, fw, pollTrace w fw info)).
    { rewrite (CheckUpdate_poll cur w fw modTime info Hn Hs Ha Hd).
      destruct (too_early w fw info); [reflexivity |].
      destruct Hcause as [Hx | [Hi Hle]]; [discriminate |].
      rewrite Hi. cbn [negb].
      apply Z.leb_le in Hle. now rewrite Z.gtb_ltb, Z.ltb_antisym, Hle. }
    split; [assumption |]. repeat split.
    + unfold pollTrace. simpl. auto.
    + unfold pollTrace. simpl. auto.
    + apply fires_poll.
    + now apply monitorLoop_stuck.
Qed.

(** C4, amended. [CheckUpdate] never clears [needsUpdate]: a poll of a
    ready watcher reports ready and leaves the flag set.  [MonitorUpdate]
    clears it each time it arms the watcher, so the first tick after
    re-arming runs the decision routine from the stat of the file on. *)
Theorem needsUpdate_cleared_by_rearming_only cur w fw :
  (needsUpdate fw = true ->
     result_of (CheckUpdate cur w fw) = Ret true /\
     needsUpdate (state_of (CheckUpdate cur w fw)) = true)
  /\ needsUpdate (MonitorUpdate_arm fw) = false
  /\ (forall rest, exists t,
        snd (MonitorUpdate cur (Tick w :: rest) fw) = Stat (filename fw) :: t)
  /\ (os_Stat w (filename fw) = None ->
        MonitorUpdate cur [Tick w] fw
        = (Waiting, set_needsUpdate false fw, [Stat (filename fw)])).
Proof.
  split; [| split; [| split]].
  - intro Hn. rewrite (CheckUpdate_ready cur w fw Hn). project. now split.
  - reflexivity.
  - intro rest. unfold MonitorUpdate, MonitorUpdate_arm. cbn [monitorLoop].
    destruct (CheckUpdate_starts_with_stat cur w (set_needsUpdate false fw) eq_refl)
      as (t & Ht).
    destruct (CheckUpdate cur w (set_needsUpdate false fw)) as [[o fw1] t1].
    unfold trace_of in Ht. cbn [snd filename set_needsUpdate] in Ht. subst t1.
    destruct o as [[|]|e].
    + simpl. eauto.
    + destruct (monitorLoop cur rest fw1) as [[l fw2] t2]. simpl. eauto.
    + simpl. eauto.
  - intro Hs. unfold MonitorUpdate, MonitorUpdate_arm. cbn [monitorLoop].
    now rewrite CheckUpdate_absent.
Qed.

End WatcherFacts.

(** ** The claims at sample inputs *)

Module Witness.

Import Sample.

Lemma CheckUpdate_initialized_witness :
  (let r := CheckUpdate (codec := codec) lowerA
              (world (Some 20) (Some "file-b") (Some "height 250")) waiting in
   result_of r = Ret true /\
   currentInfo (state_of r) = lowerB /\
   lastModTime (state_of r) = 20 /\
   needsUpdate (state_of r) = true /\
   fires_heightReached (world (Some 20) (Some "file-b") (Some "height 250"))
                       (trace_of r))
  /\
  (let r := CheckUpdate (codec := codec) lowerA
              (world (Some 20) (Some "file-a") (Some "height 250")) waiting in
   result_of r = Ret false /\
   currentInfo (state_of r) = lowerA /\
   state_of r = waiting).
Proof.
  split.
  - refine (proj1 (CheckUpdate_initialized (codec := codec) lowerA
                     (world (Some 20) (Some "file-b") (Some "height 250"))
                     waiting 20 lowerB _ _ _ _ _ _) _); reflexivity.
  - refine (proj2 (CheckUpdate_initialized (codec := codec) lowerA
                     (world (Some 20) (Some "file-a") (Some "height 250"))
                     waiting 20 lowerA _ _ _ _ _ _) _);
      reflexivity.
Defined.


Lemma CheckUpdate_needsUpdate_short_circuit_witness :
  CheckUpdate (codec := codec) planA
    (world (Some 20) (Some "file-b") (Some "height 250")) ready
  = (Ret true, ready, []).
Proof.
  pose proof (CheckUpdate_needsUpdate_short_circuit (codec := codec) planA
                (world (Some 20) (Some "file-b") (Some "height 250")) ready
                eq_refl) as (Hr & Ht & Hs & _).
  destruct (CheckUpdate (codec := codec) planA
              (world (Some 20) (Some "file-b") (Some "height 250")) ready)
    as [[o fw1] t].
  unfold result_of, state_of, trace_of, silent in *. simpl in *. now subst.
Defined.


Lemma CheckUpdate_bad_file_panics_witness :
  exists err,
    CheckUpdate (codec := codec) planA
      (world (Some 20) (Some "file-unnamed") None) waiting
    = (Panic (errorWrap "failed to parse upgrade info file" err), waiting,
       [Stat (filename waiting); ReadFile (filename waiting)]).
Proof.
  refine (CheckUpdate_bad_file_panics (codec := codec) planA
            (world (Some 20) (Some "file-unnamed") None) waiting 20 _ _ _ _);
    [reflexivity | reflexivity | reflexivity |].
  right. apply bad_name with "file-unnamed" unnamed; reflexivity.
Defined.

Lemma first_poll_mutates_watcher_witness :
  let r := CheckUpdate (codec := codec) planA
             (world (Some 20) (Some "file-a") (Some "height 250")) fresh in
  result_of r = Ret false /\
  state_of r = adopt lowerA 20 (set_initialized true fresh) /\
  state_of r <> fresh.
Proof.
  refine (proj2 (first_poll_mutates_watcher (codec := codec) planA
                   (world (Some 20) (Some "file-a") (Some "height 250"))
                   fresh 20 lowerA _ _ _ _ _ _) _); reflexivity.
Defined.

Lemma lastModTime_only_on_adoption_witness :
  (let w := world (Some 20) (Some "file-a") (Some "height 50") in
   monitorLoop (codec := codec) planB (ticks 3 w) fresh
   = (Waiting, fresh,
      List.concat (repeat (pollTrace (codec := codec) w fresh lowerA) 3)))
  /\
  (let w := world (Some 20) (Some "file-a") (Some "height 250") in
   exists info,
     decodes (codec := codec) w fresh info /\
     currentInfo (state_of (CheckUpdate (codec := codec) planB w fresh)) = info /\
     os_Stat w (filename fresh)
     = Some (lastModTime (state_of (CheckUpdate (codec := codec) planB w fresh))) /\
     (initialized fresh = false \/
      upgradetypes.Height info > upgradetypes.Height (currentInfo fresh))).
Proof.
  split.
  - refine (proj2 (proj2 (proj2 (proj2
              (proj2 (lastModTime_only_on_adoption (codec := codec) planB
                        (world (Some 20) (Some "file-a") (Some "height 50")) fresh)
                     20 lowerA _ _ _ _ _)))) 3%nat);
      [reflexivity | reflexivity | reflexivity | reflexivity |].
    left. reflexivity.
  - refine (proj1 (lastModTime_only_on_adoption (codec := codec) planB
                     (world (Some 20) (Some "file-a") (Some "height 250")) fresh) _).
    vm_compute. discriminate.
Defined.

Lemma needsUpdate_cleared_by_rearming_only_witness :
  result_of (CheckUpdate (codec := codec) planA (world None None None) ready)
  = Ret true /\
  MonitorUpdate (codec := codec) planA [Tick (world None None None)] ready
  = (Waiting, waiting, [Stat (filename ready)]).
Proof.
  pose proof (needsUpdate_cleared_by_rearming_only (codec := codec) planA
                (world None None None) ready) as (Hk & _ & _ & Hre).
  split.
  - exact (proj1 (Hk eq_refl)).
  - exact (Hre eq_refl).
Defined.

Lemma getVersionAndRepoFromUrl_repo_witness :
  getVersionAndRepoFromUrl "https://example.org/dl/v1.2.3/bin" = ("", "v1.2.3").
Proof.
  pose proof (proj2 getVersionAndRepoFromUrl_repo
                "https://example.org/dl/v1.2.3/bin") as Hrepo.
  assert (Hnone : forall seg,
             In seg (Split "https://example.org/dl/v1.2.3/bin" "/") ->
             EqualFold seg "github.com" = false).
  { intros seg Hin. vm_compute in Hin.
    repeat (destruct Hin as [<- | Hin]; [reflexivity |]). destruct Hin. }
  specialize (Hrepo Hnone).
  destruct (getVersionAndRepoFromUrl "https://example.org/dl/v1.2.3/bin")
    as [r v] eqn:Hg.
  simpl in Hrepo. subst r.
  apply (f_equal snd) in Hg. vm_compute in Hg. now subst v.
Defined.

Lemma getVersionAndRepoFromUrl_version_witness :
  getVersionAndRepoFromUrl "https://github.com/org/repo/releases/download/v1.2.3/bin"
  = getVersionAndRepoFromUrl "https://github.com/org/repo/releases/download/v1.2.3".
Proof.
  refine (proj1 (proj2 (proj2 getVersionAndRepoFromUrl_version))
            _ _ ["https:"; ""; "github.com"; "org"; "repo"; "releases"; "download"]
            "v1.2.3" ["bin"] [] _ _ _); reflexivity.
Defined.

(** Outside the three failures of the probe: a height below the 64-bit
    range makes [strconv.ParseInt] return the least [int64] together with
    its error; the watcher drops the error and keeps the height, and the
    gate is closed. *)
Remark probe_range_error_closes_gate :
  let w := world (Some 20) (Some "file-a") (Some "height -9223372036854775809") in
  probe (codec := codec) w fresh = (- 2 ^ 63, Some (errorOf "strconv.ParseInt")) /\
  too_early (codec := codec) w fresh lowerA = true.
Proof. split; reflexivity. Qed.

End Witness.

(** ** Where the claims as first stated fail *)

Module Counterexample.

Import Sample.

(** C4 as stated: re-arming leaves [needsUpdate] set and the first tick
    reports ready at once.  The ready sample watcher loses the flag when
    it is armed, and its first tick, the file being absent, stats the file
    and does not report ready. *)
Lemma rearming_clears_needsUpdate :
  needsUpdate ready = true /\
  needsUpdate (MonitorUpdate_arm ready) = false /\
  MonitorUpdate (codec := codec) planA [Tick (world None None None)] ready
  = (Waiting, waiting, [Stat (filename ready)]).
Proof. repeat split. Qed.

(** C6 as stated: in every state, a file that is present, newer and
    undecodable makes the poll abort.  The ready sample watcher, on an
    empty file newer than its [lastModTime], reports ready instead. *)
Lemma ready_watcher_ignores_bad_file :
  let w := world (Some 20) (Some "") None in
  os_Stat w (filename ready) = Some 20 /\
  After 20 (lastModTime ready) = true /\
  bad_content (codec := codec) w ready /\
  decode_fails (codec := codec) w ready /\
  CheckUpdate (codec := codec) planA w ready = (Ret true, ready, []) /\
  ~ (exists e, result_of (CheckUpdate (codec := codec) planA w ready) = Panic e).
Proof.
  cbv zeta. repeat split.
  - now apply bad_empty.
  - eexists _, _. reflexivity.
  - intros (e & He). discriminate He.
Qed.

(** C8 as stated: the version is the first segment matching "optional v/V,
    digits.digits.digits, anything".  In the sample URL that segment is
    "1.2.3"; the scanner returns no version. *)
Lemma bare_digits_are_no_version :
  firstMatch optionalV_Pattern (Split bareDigitsUrl "/") = "1.2.3" /\
  snd (getVersionAndRepoFromUrl bareDigitsUrl) = "" /\
  snd (getVersionAndRepoFromUrl bareDigitsUrl)
    <> firstMatch optionalV_Pattern (Split bareDigitsUrl "/").
Proof.
  repeat split. vm_compute. discriminate.
Qed.

End Counterexample.

(* ================================================================== *)
(** * Further properties *)

(** ** Strings *)

Section StringFacts.

Lemma append_cancel (s a b : string) : s ++ a = s ++ b -> a = b.
Proof.
  induction s as [|c s IH]; simpl; intro H; [assumption |].
  injection H as H. now apply IH.
Qed.

Lemma callbackUrl_suffix w a b : callbackUrl w a = callbackUrl w b -> a = b.
Proof.
  unfold callbackUrl. intro H.
  repeat (apply append_cancel in H). assumption.
Qed.

Lemma lowerByte_idem c : lowerByte (lowerByte c) = lowerByte c.
Proof. destruct c as [[] [] [] [] [] [] [] []]; reflexivity. Qed.

Lemma ToLower_idem s : ToLower (ToLower s) = ToLower s.
Proof.
  induction s as [|c s IH]; simpl; [reflexivity |].
  now rewrite lowerByte_idem, IH.
Qed.

Lemma ToLower_empty s : ToLower s = "" <-> s = "".
Proof. destruct s; simpl; split; intro H; try reflexivity; discriminate. Qed.


Lemma length_zero (f : string) : (Z.of_nat (String.length f) =? 0) = true <-> f = "".
Proof.
  destruct f; simpl; split; intro H; try reflexivity; try discriminate.
Qed.

End StringFacts.

(** ** The reader *)

Section ReaderFacts.

Context {codec : Json}.

Lemma ValidateBasic_valid p :
  upgradetypes.ValidateBasic p = None <-> valid_plan p.
Proof.
  unfold upgradetypes.ValidateBasic, valid_plan.
  destruct (String.eqb_spec (upgradetypes.Name p) "") as [Hn | Hn].
  - split; [discriminate | intros [H _]; contradiction].
  - destruct (Z.leb_spec (upgradetypes.Height p) 0) as [Hh | Hh].
    + split; [discriminate | intros [_ H]; lia].
    + split; [now split | reflexivity].
Qed.


Lemma recased_valid d q : valid_plan q -> valid_plan (recased d q).
Proof.
  unfold recased, valid_plan. intros [Hn Hh]. destruct d; simpl; [now split |].
  split; [| assumption]. intro H. apply (proj1 (ToLower_empty _)) in H. contradiction.
Qed.

Lemma decodes_inv w fw info :
  decodes w fw info ->
  exists content q,
    os_ReadFile w (filename fw) = Some content /\ content <> "" /\
    json_Unmarshal_Plan content = Some q /\ valid_plan q /\
    info = recased (disableRecase fw) q.
Proof.
  unfold decodes, result_of, parseUpgradeInfoFile, bind, ask, emit, ret.
  destruct (os_ReadFile w (filename fw)) as [content|]; [| discriminate].
  destruct (Z.of_nat (String.length content) =? 0) eqn:Hlen; [discriminate |].
  destruct (json_Unmarshal_Plan content) as [q|] eqn:Hq; [| discriminate].
  destruct (upgradetypes.ValidateBasic q) eqn:Hv; [discriminate |].
  cbn [fst]. intro H. injection H as <-.
  exists content, q.
  split; [reflexivity |].
  split; [intro Hc; apply length_zero in Hc; congruence |].
  split; [assumption |].
  split; [now apply ValidateBasic_valid |].
  unfold recased. now destruct (disableRecase fw).
Qed.

End ReaderFacts.

(** ** One poll, in general *)

Section PollFacts.

Context {codec : Json}.

Ltac project :=
  unfold result_of, state_of, trace_of, adopt;
  cbn [fst snd set_needsUpdate set_lastModTime set_currentInfo set_initialized
       currentInfo lastModTime needsUpdate initialized filename interval
       currentBin disableRecase].

Lemma set_initialized_same fw : initialized fw = true -> set_initialized true fw = fw.
Proof. destruct fw; simpl; now intros ->. Qed.

Lemma set_needsUpdate_same b fw : needsUpdate fw = b -> set_needsUpdate b fw = fw.
Proof. destruct fw; simpl; now intros ->. Qed.

(** A poll either leaves the watcher as it is, or adopts a plan read from a
    newer file behind an open gate. *)
Lemma CheckUpdate_summary cur w fw :
  let r := CheckUpdate cur w fw in
  (state_of r = fw /\
   (result_of r = Ret (needsUpdate fw) \/ exists e, result_of r = Panic e))
  \/
  (exists modTime info,
     needsUpdate fw = false /\
     os_Stat w (filename fw) = Some modTime /\
     After modTime (lastModTime fw) = true /\
     decodes w fw info /\
     too_early w fw info = false /\
     (initialized fw = true -> accepts cur fw info = true) /\
     result_of r = Ret (accepts cur fw info) /\
     state_of r
     = set_needsUpdate (accepts cur fw info)
         (adopt info modTime (set_initialized true fw))).
Proof.
  intro r. subst r.
  destruct (needsUpdate fw) eqn:Hn.
  { left. rewrite (CheckUpdate_ready cur w fw Hn). project. auto. }
  destruct (CheckUpdate_cases cur w fw Hn)
    as [-> | [(err & ->) | (modTime & info & Hs & Ha & Hd)]];
    [left; project; auto | left; project; eauto |].
  rewrite (CheckUpdate_poll cur w fw modTime info Hn Hs Ha Hd).
  destruct (too_early w fw info) eqn:Hg; [left; project; auto |].
  unfold accepts.
  destruct (initialized fw) eqn:Hi; cbn [negb].
  - destruct (_ >? _) eqn:Hgt; [| left; project; auto].
    right. exists modTime, info. rewrite ?Hgt. repeat split; try assumption.
    rewrite (set_initialized_same fw Hi). reflexivity.
  - right. exists modTime, info. repeat split; try assumption; try discriminate.
    + now destruct (EqualFold _ _).
    + destruct (EqualFold _ _); cbn [negb]; project; [| reflexivity].
      destruct fw; simpl in *; now subst.
Qed.

Lemma poll_old_file cur w fw :
  needsUpdate fw = false ->
  not_newer (filename fw) (lastModTime fw) (Tick w) ->
  CheckUpdate cur w fw = (Ret false, fw, [Stat (filename fw)]).
Proof.
  unfold not_newer. intros Hn Hold.
  destruct (os_Stat w (filename fw)) as [modTime|] eqn:Hs.
  - apply CheckUpdate_stale with modTime; try assumption.
    unfold After. rewrite Z.gtb_ltb. now apply Z.ltb_ge.
  - now apply CheckUpdate_absent.
Qed.

(** A watched file that is absent, or not newer than the last accepted
    modification time (an equal time included), is not read: the poll
    answers what [needsUpdate] says, leaves the watcher as it is, and does
    nothing but the stat (not even that when the watcher is ready). *)
Theorem CheckUpdate_no_newer_file cur w fw :
  not_newer (filename fw) (lastModTime fw) (Tick w) ->
  CheckUpdate cur w fw
  = (Ret (needsUpdate fw), fw,
     if needsUpdate fw then [] else [Stat (filename fw)]).
Proof.
  intro Hold. destruct (needsUpdate fw) eqn:Hn.
  - now apply CheckUpdate_ready.
  - now apply poll_old_file.
Qed.

(** The poll panics exactly when the watcher is not ready, the file is
    present and newer, and the reader fails. *)
Theorem CheckUpdate_panics_iff cur w fw :
  (exists e, result_of (CheckUpdate cur w fw) = Panic e) <->
  needsUpdate fw = false /\
  (exists modTime,
     os_Stat w (filename fw) = Some modTime /\
     After modTime (lastModTime fw) = true) /\
  decode_fails w fw.
Proof.
  split.
  - intros (e & He).
    destruct (needsUpdate fw) eqn:Hn.
    { rewrite (CheckUpdate_ready cur w fw Hn) in He. discriminate. }
    destruct (os_Stat w (filename fw)) as [modTime|] eqn:Hs.
    2:{ rewrite (CheckUpdate_absent cur w fw Hn Hs) in He. discriminate. }
    destruct (After modTime (lastModTime fw)) eqn:Ha.
    2:{ rewrite (CheckUpdate_stale cur w fw modTime Hn Hs Ha) in He. discriminate. }
    split; [reflexivity |]. split; [eauto |].
    destruct (parse_run (filename fw) (disableRecase fw) w fw) as ([p [err|]] & Hp).
    + exists p, err. unfold result_of. now rewrite Hp.
    + assert (Hd : decodes w fw p) by (unfold decodes, result_of; now rewrite Hp).
      rewrite (CheckUpdate_poll cur w fw modTime p Hn Hs Ha Hd) in He.
      destruct (too_early w fw p); [discriminate |].
      destruct (negb (initialized fw));
        [destruct (negb _) | destruct (_ >? _)]; discriminate.
  - intros (Hn & (modTime & Hs & Ha) & (p & err & Hp)).
    rewrite (CheckUpdate_bad cur w fw modTime p err Hn Hs Ha Hp). project. eauto.
Qed.

(** A poll never touches the configuration of the watcher: the file name,
    the interval, the binary and the recasing switch. *)
Theorem CheckUpdate_keeps_configuration cur w fw :
  let fw' := state_of (CheckUpdate cur w fw) in
  filename fw' = filename fw /\
  interval fw' = interval fw /\
  currentBin fw' = currentBin fw /\
  disableRecase fw' = disableRecase fw.
Proof.
  intro fw'. subst fw'.
  destruct (CheckUpdate_summary cur w fw)
    as [[-> _] | (modTime & info & _ & _ & _ & _ & _ & _ & _ & ->)];
    project; auto.
Qed.

(** A poll never clears [initialized] or [needsUpdate] and never moves
    [lastModTime] backwards. *)
Theorem CheckUpdate_monotone cur w fw :
  let fw' := state_of (CheckUpdate cur w fw) in
  (initialized fw = true -> initialized fw' = true) /\
  (needsUpdate fw = true -> needsUpdate fw' = true) /\
  lastModTime fw <= lastModTime fw'.
Proof.
  intro fw'. subst fw'.
  destruct (CheckUpdate_summary cur w fw)
    as [[-> _] | (modTime & info & Hn & _ & Ha & _ & _ & _ & _ & ->)].
  - repeat split; auto. lia.
  - project. repeat split; [congruence |].
    unfold After in Ha. apply Z.gtb_lt in Ha. lia.
Qed.

Lemma poll_answer_flag cur w fw b :
  result_of (CheckUpdate cur w fw) = Ret b ->
  needsUpdate (state_of (CheckUpdate cur w fw)) = b.
Proof.
  destruct (CheckUpdate_summary cur w fw)
    as [[-> [-> | (e & ->)]] | (modTime & info & _ & _ & _ & _ & _ & _ & -> & ->)];
    project; intro H; congruence.
Qed.

Lemma poll_panic_flag cur w fw e :
  result_of (CheckUpdate cur w fw) = Panic e ->
  needsUpdate (state_of (CheckUpdate cur w fw)) = false.
Proof.
  intro He.
  destruct (CheckUpdate_summary cur w fw)
    as [[Hs _] | (modTime & info & _ & _ & _ & _ & _ & _ & Hr & _)].
  - rewrite Hs. destruct (needsUpdate fw) eqn:Hn; [| reflexivity].
    rewrite (CheckUpdate_ready cur w fw Hn) in He. discriminate.
  - congruence.
Qed.

(** A poll reports ready exactly when it leaves [needsUpdate] set; a poll
    that reports not ready, or panics, leaves it clear. *)
Theorem CheckUpdate_ready_iff_flag cur w fw :
  result_of (CheckUpdate cur w fw) = Ret true <->
  needsUpdate (state_of (CheckUpdate cur w fw)) = true.
Proof.
  split.
  - apply poll_answer_flag.
  - intro Hflag.
    destruct (result_of (CheckUpdate cur w fw)) as [[|]|e] eqn:Hr.
    + reflexivity.
    + apply poll_answer_flag in Hr. congruence.
    + apply poll_panic_flag in Hr. congruence.
Qed.

End PollFacts.

(** ** The loop over the binaries, the probe and the callbacks *)

Section EffectFacts.

Context {codec : Json}.

Ltac run := cbv [bind ask get emit ret modify panic].

Lemma last_cons_default {A} (l : list A) : forall a d, last (a :: l) d = last l a.
Proof.
  induction l as [|b l IH]; intros a d; [reflexivity |].
  change (last (a :: b :: l) d) with (last (b :: l) d).
  now rewrite (IH b d), (IH b a).
Qed.

Lemma extractLoop_general urls : forall r v w fw,
  extractLoop urls r v w fw
  = (Ret match find versioned urls with
         | Some url => getVersionAndRepoFromUrl url
         | None =>
             (last (map (fun url => fst (getVersionAndRepoFromUrl url)) urls) r,
              match urls with [] => v | _ => "" end)
         end,
     fw, map Extract (scanned urls)).
Proof.
  induction urls as [|url rest IH]; intros r v w fw; cbn [extractLoop find scanned map].
  - reflexivity.
  - run. unfold versioned at 1 3.
    destruct (getVersionAndRepoFromUrl url) as [r1 v1] eqn:Hg. cbn [snd fst].
    destruct (String.eqb_spec v1 "") as [-> | Hv]; cbn [negb].
    + rewrite IH. cbn [app map].
      destruct (find versioned rest); [reflexivity |].
      rewrite last_cons_default. destruct rest; reflexivity.
    + now rewrite Hg.
Qed.

(** The loop over the binaries keeps the repository and version of the first
    URL that has a version tag and looks at no URL after it.  When no URL
    has one, the version is empty and the repository is the one of the last
    URL (empty when there is no URL).  The watcher is left as it is. *)
Theorem extractLoop_first_versioned urls w fw :
  extractLoop urls "" "" w fw
  = (Ret match find versioned urls with
         | Some url => getVersionAndRepoFromUrl url
         | None =>
             (last (map (fun url => fst (getVersionAndRepoFromUrl url)) urls) "", "")
         end,
     fw, map Extract (scanned urls)).
Proof.
  rewrite extractLoop_general.
  destruct (find versioned urls); [reflexivity |]. now destruct urls.
Qed.

Lemma posts_extract urls : posts (map Extract urls) = [].
Proof. induction urls; simpl; auto. Qed.

Lemma checkHeight_trace w fw :
  trace_of (checkHeight w fw)
  = if HasSuffix (os_Args0 w) ".test" then [CheckHeight]
    else [CheckHeight; Exec (currentBin fw) ["status"]].
Proof.
  unfold checkHeight, trace_of; run.
  destruct (HasSuffix _ _); [reflexivity |].
  destruct (exec_Output _ _ _) as [out|]; [| reflexivity].
  destruct (json_Unmarshal_response out) as [h|]; [| reflexivity].
  destruct (_ =? _)%string; [reflexivity |].
  now destruct (Strconv.ParseInt h).
Qed.

(** The probe never panics and never changes the watcher.  When the program
    runs as a test binary (its name ends in ".test") it answers height 0
    without error and starts no subprocess, whatever the status command
    would say; otherwise it runs the current binary once, with the one
    argument "status". *)
Theorem checkHeight_effects w fw :
  exists r,
    checkHeight w fw
    = (Ret r, fw,
       if HasSuffix (os_Args0 w) ".test" then [CheckHeight]
       else [CheckHeight; Exec (currentBin fw) ["status"]])
    /\ (HasSuffix (os_Args0 w) ".test" = true -> r = (0, None)).
Proof.
  pose proof (checkHeight_trace w fw) as Ht. unfold trace_of in Ht.
  destruct (checkHeight_run w fw) as (r & t & Hr).
  rewrite Hr in Ht. simpl in Ht. subst t.
  exists r. split; [assumption |].
  intro Htest. revert Hr. unfold checkHeight; run. rewrite Htest.
  intro H. now injection H.
Qed.

Lemma posts_pollTrace w fw info :
  posts (pollTrace w fw info)
  = [HttpPost (callbackUrl w "/cosmos_notify_upgrade") "application/json"
              (callbackJsonOf w fw info)].
Proof.
  unfold pollTrace, posts, extractTrace, notice.
  rewrite !filter_app. rewrite checkHeight_trace.
  replace (filter is_post match plan_ParseInfo w (upgradetypes.Info info) with
                          | Some binaries => trace_of (extractLoop binaries "" "" w fw)
                          | None => []
                          end) with (@nil Event).
  - destruct (HasSuffix _ _); reflexivity.
  - destruct (plan_ParseInfo w _) as [binaries|]; [| reflexivity].
    rewrite extractLoop_general. unfold trace_of. cbn [snd].
    symmetry. apply posts_extract.
Qed.

Lemma posts_reachedTrace w fw info :
  posts (reachedTrace w fw info)
  = [HttpPost (callbackUrl w "/cosmos_upgrade_height_reached") "application/json"
              (callbackJsonOf w fw info)].
Proof. reflexivity. Qed.

Lemma fires_posts suffix w tr :
  fires suffix w tr <->
  exists body, In (HttpPost (callbackUrl w suffix) "application/json" body) (posts tr).
Proof.
  unfold fires, posts. split; intros (body & H); exists body.
  - apply filter_In. now split.
  - now apply filter_In in H.
Qed.

Lemma poll_never_reached w fw info : ~ fires_heightReached w (pollTrace w fw info).
Proof.
  intro H. apply fires_posts in H as (body & H).
  rewrite posts_pollTrace in H. destruct H as [H | []].
  injection H as Hurl _. apply callbackUrl_suffix in Hurl. discriminate.
Qed.

(** The POSTs of one poll: none; or "upgrade detected" alone; or "upgrade
    detected" followed by "height reached" with the same body.  No endpoint
    is posted to twice. *)
Theorem CheckUpdate_posts cur w fw :
  let tr := trace_of (CheckUpdate cur w fw) in
  posts tr = [] \/
  exists body,
    posts tr
    = [HttpPost (callbackUrl w "/cosmos_notify_upgrade") "application/json" body]
    \/
    posts tr
    = [HttpPost (callbackUrl w "/cosmos_notify_upgrade") "application/json" body;
       HttpPost (callbackUrl w "/cosmos_upgrade_height_reached") "application/json"
                body].
Proof.
  intro tr. subst tr.
  destruct (needsUpdate fw) eqn:Hn.
  { left. now rewrite (CheckUpdate_ready cur w fw Hn). }
  destruct (CheckUpdate_cases cur w fw Hn)
    as [-> | [(err & ->) | (modTime & info & Hs & Ha & Hd)]];
    [now left | now left |].
  right. exists (callbackJsonOf w fw info).
  rewrite (CheckUpdate_poll cur w fw modTime info Hn Hs Ha Hd).
  assert (Hboth : posts (pollTrace w fw info ++ reachedTrace w fw info)
                  = [HttpPost (callbackUrl w "/cosmos_notify_upgrade")
                              "application/json" (callbackJsonOf w fw info);
                     HttpPost (callbackUrl w "/cosmos_upgrade_height_reached")
                              "application/json" (callbackJsonOf w fw info)]).
  { unfold posts. rewrite filter_app. fold (posts (pollTrace w fw info)).
    now rewrite posts_pollTrace. }
  destruct (too_early w fw info); [left; apply posts_pollTrace |].
  destruct (negb (initialized fw));
    [destruct (negb _) | destruct (_ >? _)]; unfold trace_of; cbn [snd];
    first [left; apply posts_pollTrace | right; apply Hboth].
Qed.

(** "Height reached" is posted exactly by the poll that turns a watcher that
    was not ready into a ready one. *)
Theorem heightReached_iff_turns_ready cur w fw :
  fires_heightReached w (trace_of (CheckUpdate cur w fw)) <->
  needsUpdate fw = false /\ result_of (CheckUpdate cur w fw) = Ret true.
Proof.
  destruct (needsUpdate fw) eqn:Hn.
  { rewrite (CheckUpdate_ready cur w fw Hn). split.
    - intros (body & []).
    - intros [H _]. discriminate. }
  destruct (CheckUpdate_cases cur w fw Hn)
    as [-> | [(err & ->) | (modTime & info & Hs & Ha & Hd)]].
  - split; [intros (body & [H | []]); discriminate | intros [_ H]; discriminate].
  - split; [intros (body & [H | [H | []]]); discriminate | intros [_ H]; discriminate].
  - rewrite (CheckUpdate_poll cur w fw modTime info Hn Hs Ha Hd).
    destruct (too_early w fw info);
      [| destruct (negb (initialized fw));
         [destruct (negb _) | destruct (_ >? _)]];
      unfold trace_of, result_of; cbn [fst snd]; split;
      first [ intros _; split; reflexivity
            | intros _; apply fires_reached
            | intro H; now apply poll_never_reached in H
            | intros [_ H]; discriminate ].
Qed.

(** "Upgrade detected" is posted exactly by the poll of a watcher that is
    not ready, on a file that is present, newer than the last accepted one,
    and read without error: whether the gate is open or not, and whether
    the plan is adopted or not. *)
Theorem detected_iff_plan_read cur w fw :
  fires_detected w (trace_of (CheckUpdate cur w fw)) <->
  needsUpdate fw = false /\
  exists modTime info,
    os_Stat w (filename fw) = Some modTime /\
    After modTime (lastModTime fw) = true /\
    decodes w fw info.
Proof.
  split.
  - intro Hf.
    destruct (needsUpdate fw) eqn:Hn.
    { rewrite (CheckUpdate_ready cur w fw Hn) in Hf. now destruct Hf as (body & []). }
    split; [reflexivity |].
    destruct (CheckUpdate_cases cur w fw Hn)
      as [Hc | [(err & Hc) | (modTime & info & Hs & Ha & Hd)]].
    + rewrite Hc in Hf. destruct Hf as (body & [H | []]). discriminate.
    + rewrite Hc in Hf. destruct Hf as (body & [H | [H | []]]); discriminate.
    + eauto.
  - intros (Hn & modTime & info & Hs & Ha & Hd).
    rewrite (CheckUpdate_poll cur w fw modTime info Hn Hs Ha Hd).
    assert (Hmore : fires_detected w (pollTrace w fw info ++ reachedTrace w fw info)).
    { destruct (fires_poll w fw info) as (body & Hin).
      exists body. apply in_or_app. now left. }
    destruct (too_early w fw info); [apply fires_poll |].
    destruct (negb (initialized fw));
      [destruct (negb _) | destruct (_ >? _)]; unfold trace_of; cbn [snd];
      first [apply fires_poll | apply Hmore].
Qed.

End EffectFacts.

(** ** The height the probe answers *)

Section ProbeFacts.

Context {codec : Json}.






End ProbeFacts.

(** ** The goroutine and the arming cycles *)

Section MonitorFacts.

Context {codec : Json}.

Ltac project :=
  unfold result_of, state_of, trace_of, adopt;
  cbn [fst snd set_needsUpdate set_lastModTime set_currentInfo set_initialized
       currentInfo lastModTime needsUpdate initialized filename interval
       currentBin disableRecase].

Lemma monitorLoop_terminal cur pre : forall fw post,
  fst (fst (monitorLoop cur pre fw)) <> Waiting ->
  monitorLoop cur (pre ++ post) fw = monitorLoop cur pre fw.
Proof.
  induction pre as [|[w|] rest IH]; intros fw post Hterm; cbn [monitorLoop app] in *.
  - now contradiction Hterm.
  - destruct (CheckUpdate cur w fw) as [[[[|]|e] fw1] t1]; try reflexivity.
    specialize (IH fw1 post).
    destruct (monitorLoop cur rest fw1) as [[l fw2] t2].
    cbn [fst] in *. now rewrite IH.
  - reflexivity.
Qed.

(** Once the goroutine has returned, having sent on [done], having been
    cancelled, or having panicked, no later signal has any effect: no
    further poll, no second ready signal in the same arming. *)
Theorem MonitorUpdate_returns_once cur pre post fw :
  fst (fst (MonitorUpdate cur pre fw)) <> Waiting ->
  MonitorUpdate cur (pre ++ post) fw = MonitorUpdate cur pre fw.
Proof. unfold MonitorUpdate. apply monitorLoop_terminal. Qed.

Lemma monitorLoop_flag cur signals : forall fw,
  needsUpdate fw = false ->
  (fst (fst (monitorLoop cur signals fw)) = Done <->
   needsUpdate (snd (fst (monitorLoop cur signals fw))) = true).
Proof.
  induction signals as [|[w|] rest IH]; intros fw Hn; cbn [monitorLoop].
  - cbn [fst snd]. rewrite Hn. split; discriminate.
  - pose proof (poll_answer_flag cur w fw) as Hflag.
    pose proof (poll_panic_flag cur w fw) as Hpanic.
    destruct (CheckUpdate cur w fw) as [[[[|]|e] fw1] t1];
      unfold result_of, state_of in Hflag, Hpanic; cbn [fst snd] in *.
    + rewrite (Hflag true eq_refl). tauto.
    + specialize (IH fw1 (Hflag false eq_refl)).
      destruct (monitorLoop cur rest fw1) as [[l fw2] t2]. cbn [fst snd] in *.
      assumption.
    + rewrite (Hpanic e eq_refl). split; discriminate.
  - cbn [fst snd]. rewrite Hn. split; discriminate.
Qed.

(** An arming ends with the ready signal exactly when it leaves
    [needsUpdate] set; after a cancellation, a panic, or while the goroutine
    still waits, the flag is clear. *)
Theorem MonitorUpdate_done_iff_flag cur signals fw :
  fst (fst (MonitorUpdate cur signals fw)) = Done <->
  needsUpdate (snd (fst (MonitorUpdate cur signals fw))) = true.
Proof. unfold MonitorUpdate. now apply monitorLoop_flag. Qed.

Lemma monitorLoop_old_file cur signals : forall fw,
  needsUpdate fw = false ->
  Forall (not_newer (filename fw) (lastModTime fw)) signals ->
  exists l n,
    monitorLoop cur signals fw = (l, fw, repeat (Stat (filename fw)) n) /\
    (l = Waiting \/ l = Cancelled) /\ (n <= List.length signals)%nat.
Proof.
  induction signals as [|[w|] rest IH]; intros fw Hn Hall; cbn [monitorLoop].
  - exists Waiting, 0%nat. simpl. auto.
  - inversion Hall as [|? ? Hw Hrest]; subst.
    rewrite (poll_old_file cur w fw Hn Hw).
    destruct (IH fw Hn Hrest) as (l & n & -> & Hl & Hlen).
    exists l, (S n). simpl. repeat split; [assumption | lia].
  - exists Cancelled, 0%nat. simpl. repeat split; [auto | lia].
Qed.

(** As long as the watched file is absent or not newer than the last
    accepted modification time, an arming never gives the ready signal, a
    watcher that was ready before it was armed included: each tick stats
    the file and nothing else, and the watcher is only cleared of
    [needsUpdate]. *)
Theorem MonitorUpdate_waits_for_newer_file cur signals fw :
  Forall (not_newer (filename fw) (lastModTime fw)) signals ->
  exists l n,
    MonitorUpdate cur signals fw
    = (l, set_needsUpdate false fw, repeat (Stat (filename fw)) n) /\
    (l = Waiting \/ l = Cancelled) /\ (n <= List.length signals)%nat.
Proof.
  intro Hall. unfold MonitorUpdate, MonitorUpdate_arm.
  apply (monitorLoop_old_file cur signals (set_needsUpdate false fw) eq_refl Hall).
Qed.

Lemma poll_consistent cur w fw :
  consistent fw -> consistent (state_of (CheckUpdate cur w fw)).
Proof.
  intros [Hblank Hplan Hcase].
  destruct (CheckUpdate_summary cur w fw)
    as [[-> _] | (modTime & info & Hn & _ & Ha & Hd & _ & _ & _ & ->)];
    [now constructor |].
  apply decodes_inv in Hd as (content & q & _ & _ & _ & Hvalid & ->).
  assert (Hpos : zeroTime < modTime).
  { unfold After in Ha. apply Z.gtb_lt in Ha.
    destruct (initialized fw) eqn:Hi.
    - destruct (Hplan eq_refl) as [_ H]. lia.
    - destruct (Hblank eq_refl) as (_ & H & _). lia. }
  constructor; project.
  - discriminate.
  - intros _. split; [now apply recased_valid | assumption].
  - intros _ Hd. rewrite Hd. unfold recased. cbn. apply ToLower_idem.
Qed.

Lemma monitorLoop_consistent cur signals : forall fw,
  consistent fw -> consistent (snd (fst (monitorLoop cur signals fw))).
Proof.
  induction signals as [|[w|] rest IH]; intros fw Hc; cbn [monitorLoop];
    try assumption.
  pose proof (poll_consistent cur w fw Hc) as Hc1.
  destruct (CheckUpdate cur w fw) as [[[[|]|e] fw1] t1];
    unfold state_of in Hc1; cbn [fst snd] in *; try assumption.
  specialize (IH fw1 Hc1).
  now destruct (monitorLoop cur rest fw1) as [[l fw2] t2].
Qed.

Lemma arm_consistent fw : consistent fw -> consistent (MonitorUpdate_arm fw).
Proof.
  intros [Hblank Hplan Hcase]. unfold MonitorUpdate_arm. constructor; project.
  - intro Hi. destruct (Hblank Hi) as (H1 & H2 & _). auto.
  - assumption.
  - assumption.
Qed.

Lemma cycles_consistent cs : forall fw, consistent fw -> consistent (cycles cs fw).
Proof.
  unfold cycles.
  induction cs as [|[cur signals] cs IH]; intros fw Hc; cbn [fold_left];
    [assumption |].
  apply IH. cbn [fst snd]. unfold MonitorUpdate.
  now apply monitorLoop_consistent, arm_consistent.
Qed.

(** Whatever the supervisor and the world do to a watcher after its
    construction: before its first adoption it holds the zero plan, the zero
    time and no pending update; after it, a plan with a name and a positive
    height, read at a time later than the zero time, and a lower-case name
    unless recasing is disabled. *)
Theorem watcher_always_consistent name bin pollInterval recaseOff cs :
  consistent (cycles cs (newUpgradeFileWatcher name bin pollInterval recaseOff)).
Proof.
  apply cycles_consistent. constructor; cbn.
  - auto.
  - discriminate.
  - discriminate.
Qed.

Lemma concat_repeat_one {A} (x : A) n : List.concat (repeat [x] n) = repeat x n.
Proof. induction n as [|n IH]; simpl; [reflexivity | now rewrite IH]. Qed.

(** A first poll that finds the plan of the running upgrade (same name, in
    any case) adopts it without a ready signal, and from then on the same
    file costs one stat per tick: no read, no callback, no signal. *)
Theorem same_name_first_poll_then_quiet cur w fw modTime info n :
  initialized fw = false ->
  needsUpdate fw = false ->
  os_Stat w (filename fw) = Some modTime ->
  After modTime (lastModTime fw) = true ->
  decodes w fw info ->
  too_early w fw info = false ->
  EqualFold (upgradetypes.Name cur) (upgradetypes.Name info) = true ->
  monitorLoop cur (ticks (S n) w) fw
  = (Waiting, adopt info modTime (set_initialized true fw),
     (pollTrace w fw info ++ repeat (Stat (filename fw)) n)%list).
Proof.
  intros Hi Hn Hs Ha Hd Hg He.
  unfold ticks. cbn [repeat monitorLoop].
  rewrite (CheckUpdate_poll cur w fw modTime info Hn Hs Ha Hd), Hg, Hi, He.
  cbn [negb].
  set (fw1 := adopt info modTime (set_initialized true fw)).
  assert (Hquiet : CheckUpdate cur w fw1 = (Ret false, fw1, [Stat (filename fw1)])).
  { apply poll_old_file.
    - subst fw1. project. assumption.
    - unfold not_newer. subst fw1. project. rewrite Hs. lia. }
  pose proof (monitorLoop_stuck cur w fw1 _ Hquiet n) as Hloop.
  unfold ticks in Hloop. rewrite Hloop, concat_repeat_one.
  subst fw1. project. reflexivity.
Qed.

End MonitorFacts.

(** ** The URL scanner, further *)

Section ScannerMore.

Lemma Split_nonempty s sep : Split s sep <> [].
Proof.
  destruct s as [|c s]; simpl; [discriminate |].
  destruct (Ascii.eqb c sep); [discriminate |].
  destruct (Split s sep); discriminate.
Qed.

Lemma Split_no_sep s sep : forall seg, In seg (Split s sep) -> occurs sep seg = false.
Proof.
  induction s as [|c s IH]; simpl; intros seg Hin.
  - destruct Hin as [<- | []]. reflexivity.
  - destruct (Ascii.eqb c sep) eqn:Hc.
    + destruct Hin as [<- | Hin]; [reflexivity | now apply IH].
    + destruct (Split s sep) as [|hd tl] eqn:Hsp.
      * destruct Hin as [<- | []]. simpl. now rewrite Hc.
      * destruct Hin as [<- | Hin].
        -- simpl. rewrite Hc. apply IH. now left.
        -- apply IH. now right.
Qed.

Lemma string_app_assoc (a b c : string) : (a ++ b) ++ c = a ++ (b ++ c).
Proof. induction a as [|x a IH]; simpl; [reflexivity | now rewrite IH]. Qed.

Lemma string_app_nil (a : string) : a ++ "" = a.
Proof. induction a as [|x a IH]; simpl; [reflexivity | now rewrite IH]. Qed.

Lemma concat_cons sep x y l :
  String.concat sep (x :: y :: l) = x ++ sep ++ String.concat sep (y :: l).
Proof. reflexivity. Qed.

(** Joining the pieces of a split gives the string back. *)
Lemma concat_Split s sep : String.concat (String sep "") (Split s sep) = s.
Proof.
  induction s as [|c s IH]; simpl; [reflexivity |].
  destruct (Ascii.eqb_spec c sep) as [-> | Hc].
  - pose proof (Split_nonempty s sep) as Hne.
    destruct (Split s sep) as [|hd tl]; [congruence |].
    rewrite <- IH. reflexivity.
  - destruct (Split s sep) as [|hd tl] eqn:Hsp.
    + now apply Split_nonempty in Hsp.
    + rewrite <- IH. now destruct tl.
Qed.

Lemma concat_snoc sep l x :
  l <> [] -> String.concat sep (l ++ [x]) = String.concat sep l ++ sep ++ x.
Proof.
  induction l as [|a l IH]; intro Hne; [congruence |].
  destruct l as [|b l].
  - reflexivity.
  - change ((a :: b :: l) ++ [x])%list with (a :: (b :: l) ++ [x])%list.
    change ((b :: l) ++ [x])%list with (b :: l ++ [x])%list at 1.
    rewrite concat_cons.
    change (b :: l ++ [x])%list with ((b :: l) ++ [x])%list.
    rewrite IH by discriminate.
    rewrite concat_cons. now rewrite !string_app_assoc.
Qed.

Lemma concat_app_prefix sep a : forall b,
  exists tail, String.concat sep (a ++ b) = String.concat sep a ++ tail.
Proof.
  induction a as [|x a IH]; intro b.
  - exists (String.concat sep b). reflexivity.
  - destruct a as [|y a].
    + destruct b as [|z b].
      * exists "". simpl. now rewrite string_app_nil.
      * exists (sep ++ String.concat sep (z :: b)). reflexivity.
    + destruct (IH b) as (tail & Ht).
      exists tail.
      change ((x :: y :: a) ++ b)%list with (x :: y :: (a ++ b))%list.
      rewrite !concat_cons.
      change (y :: a ++ b)%list with ((y :: a) ++ b)%list.
      rewrite Ht. now rewrite !string_app_assoc.
Qed.

Lemma upto_tag_prefix segs : exists tl, segs = (upto_tag segs ++ tl)%list.
Proof.
  induction segs as [|s segs (tl & IH)]; simpl; [now exists [] |].
  destruct (matches versionPattern s).
  - now exists segs.
  - exists tl. simpl. now rewrite <- IH.
Qed.

Lemma scan_step str rest idx st :
  scanSegments (str :: rest) idx st
  = let g := if EqualFold str "github.com" then idx else githubIdx st in
    let r := if (g <? 0) || (idx <=? g + 2)
             then (if 0 <? idx then repo st ++ "/" else repo st) ++ str
             else repo st in
    if matches versionPattern str
    then {| githubIdx := g; ver := str; repo := r |}
    else scanSegments rest (idx + 1) {| githubIdx := g; ver := ver st; repo := r |}.
Proof. reflexivity. Qed.

(** A segment that is "github.com", in any case, is no version tag. *)
Lemma github_not_tag s :
  EqualFold s "github.com" = true -> matches versionPattern s = false.
Proof.
  destruct s as [|c s]; intro H; [reflexivity |].
  apply matches_needs_v.
  destruct (is_vV c) eqn:Hv; [| reflexivity].
  unfold is_vV in Hv. apply orb_true_iff in Hv as [Hv | Hv];
    apply Ascii.eqb_eq in Hv; subst c; discriminate H.
Qed.

Lemma scan_before_host pre rest : forall done,
  (forall s, In s pre ->
     EqualFold s "github.com" = false /\ matches versionPattern s = false) ->
  scanSegments (pre ++ rest) (Z.of_nat (List.length done))
    {| githubIdx := -1; ver := ""; repo := String.concat "/" done |}
  = scanSegments rest (Z.of_nat (List.length (done ++ pre)))
      {| githubIdx := -1; ver := ""; repo := String.concat "/" (done ++ pre) |}.
Proof.
  induction pre as [|a pre IH]; intros done Hpre; cbn [app].
  - now rewrite app_nil_r.
  - rewrite scan_step. cbn [githubIdx repo ver].
    destruct (Hpre a (or_introl eq_refl)) as [He Hm]. rewrite He, Hm. cbv zeta.
    change (-1 <? 0) with true. cbn [orb].
    assert (Hr : (if 0 <? Z.of_nat (List.length done)
                  then String.concat "/" done ++ "/"
                  else String.concat "/" done) ++ a
                 = String.concat "/" (done ++ [a])).
    { destruct done as [|x l]; [reflexivity |].
      replace (0 <? Z.of_nat (List.length (x :: l))) with true
        by (symmetry; apply Z.ltb_lt; simpl; lia).
      rewrite concat_snoc by discriminate. now rewrite string_app_assoc. }
    rewrite Hr.
    replace (Z.of_nat (List.length done) + 1)
      with (Z.of_nat (List.length (done ++ [a])))
      by (rewrite length_app; simpl; lia).
    rewrite IH by (intros s Hs; apply Hpre; now right).
    now rewrite <- app_assoc.
Qed.

Lemma scan_from_start pre rest :
  (forall s, In s pre ->
     EqualFold s "github.com" = false /\ matches versionPattern s = false) ->
  scanSegments (pre ++ rest) 0 {| githubIdx := -1; ver := ""; repo := "" |}
  = scanSegments rest (Z.of_nat (List.length pre))
      {| githubIdx := -1; ver := ""; repo := String.concat "/" pre |}.
Proof. intro Hpre. exact (scan_before_host pre rest [] Hpre). Qed.

Lemma scan_after_host post : forall done st g,
  0 <= g < Z.of_nat (List.length done) ->
  githubIdx st = g ->
  repo st = String.concat "/" (firstn (Z.to_nat (g + 3)) done) ->
  (forall s, In s post -> EqualFold s "github.com" = false) ->
  githubIdx (scanSegments post (Z.of_nat (List.length done)) st) = g /\
  repo (scanSegments post (Z.of_nat (List.length done)) st)
  = String.concat "/" (firstn (Z.to_nat (g + 3)) (done ++ upto_tag post)).
Proof.
  induction post as [|a post IH]; intros done st g Hg Hidx Hrepo Hno.
  - cbn [scanSegments upto_tag]. now rewrite app_nil_r.
  - rewrite scan_step. rewrite (Hno a (or_introl eq_refl)). cbv zeta. rewrite Hidx.
    assert (Hr : (if (g <? 0) || (Z.of_nat (List.length done) <=? g + 2)
                  then (if 0 <? Z.of_nat (List.length done)
                        then repo st ++ "/" else repo st) ++ a
                  else repo st)
                 = String.concat "/" (firstn (Z.to_nat (g + 3)) (done ++ [a]))).
    { replace (g <? 0) with false by (symmetry; apply Z.ltb_ge; lia).
      cbn [orb].
      destruct (Z.of_nat (List.length done) <=? g + 2) eqn:Hle.
      - apply Z.leb_le in Hle.
        replace (0 <? Z.of_nat (List.length done)) with true
          by (symmetry; apply Z.ltb_lt; lia).
        rewrite Hrepo.
        rewrite (firstn_all2 done) by lia.
        rewrite (firstn_all2 (done ++ [a])) by (rewrite length_app; simpl; lia).
        rewrite concat_snoc by (destruct done; [simpl in Hg; lia | discriminate]).
        now rewrite string_app_assoc.
      - apply Z.leb_gt in Hle. rewrite firstn_app.
        replace (Z.to_nat (g + 3) - List.length done)%nat with 0%nat by lia.
        cbn [firstn]. now rewrite app_nil_r. }
    rewrite Hr. cbn [upto_tag].
    destruct (matches versionPattern a) eqn:Hm.
    + cbn [githubIdx repo]. now split.
    + replace (Z.of_nat (List.length done) + 1)
        with (Z.of_nat (List.length (done ++ [a])))
        by (rewrite length_app; simpl; lia).
      replace (done ++ a :: upto_tag post)%list
        with ((done ++ [a]) ++ upto_tag post)%list
        by (now rewrite <- app_assoc).
      apply IH.
      * rewrite length_app. simpl. lia.
      * reflexivity.
      * reflexivity.
      * intros s Hs. apply Hno. now right.
Qed.

(** A URL with one "github.com" segment, no version tag before it: the
    repository is the URL up to the second segment after that host, or up
    to the version tag when it comes earlier; so it is a prefix of the URL. *)
Theorem repo_is_prefix_of_url url pre host post :
  Split url "/" = (pre ++ host :: post)%list ->
  EqualFold host "github.com" = true ->
  (forall s, In s pre ->
     EqualFold s "github.com" = false /\ matches versionPattern s = false) ->
  (forall s, In s post -> EqualFold s "github.com" = false) ->
  fst (getVersionAndRepoFromUrl url)
  = String.concat "/" (firstn (List.length pre + 3) (pre ++ host :: upto_tag post))
  /\ exists tail, url = fst (getVersionAndRepoFromUrl url) ++ tail.
Proof.
  intros Hsplit Hhost Hpre Hpost.
  assert (Hrepo : fst (getVersionAndRepoFromUrl url)
                  = String.concat "/" (firstn (List.length pre + 3)
                                              (pre ++ host :: upto_tag post))).
  { unfold getVersionAndRepoFromUrl. rewrite Hsplit. cbn [fst].
    rewrite (scan_from_start pre (host :: post) Hpre).
    rewrite scan_step. rewrite Hhost, (github_not_tag host Hhost). cbv zeta.
    cbn [githubIdx repo ver].
    replace ((Z.of_nat (List.length pre) <? 0)
             || (Z.of_nat (List.length pre) <=? Z.of_nat (List.length pre) + 2))
      with true
      by (symmetry; apply orb_true_iff; right; apply Z.leb_le; lia).
    assert (Hr : (if 0 <? Z.of_nat (List.length pre)
                  then String.concat "/" pre ++ "/"
                  else String.concat "/" pre) ++ host
                 = String.concat "/" (pre ++ [host])).
    { destruct pre as [|x l]; [reflexivity |].
      replace (0 <? Z.of_nat (List.length (x :: l))) with true
        by (symmetry; apply Z.ltb_lt; simpl; lia).
      rewrite concat_snoc by discriminate. now rewrite string_app_assoc. }
    rewrite Hr.
    replace (Z.of_nat (List.length pre) + 1)
      with (Z.of_nat (List.length (pre ++ [host])))
      by (rewrite length_app; simpl; lia).
    destruct (scan_after_host post (pre ++ [host])
                {| githubIdx := Z.of_nat (List.length pre); ver := "";
                   repo := String.concat "/" (pre ++ [host]) |}
                (Z.of_nat (List.length pre))) as [Hg Hr'].
    - rewrite length_app. simpl. lia.
    - reflexivity.
    - cbn [repo]. rewrite firstn_all2; [reflexivity |].
      rewrite length_app. simpl. lia.
    - assumption.
    - cbn [ver] in *. rewrite Hg, Hr'.
      replace (Z.of_nat (List.length pre) <? 0) with false
        by (symmetry; apply Z.ltb_ge; lia).
      replace (Z.to_nat (Z.of_nat (List.length pre) + 3))
        with (List.length pre + 3)%nat by lia.
      now rewrite <- app_assoc. }
  split; [assumption |].
  rewrite Hrepo.
  destruct (upto_tag_prefix post) as (tl & Htl).
  set (seen := (pre ++ host :: upto_tag post)%list).
  assert (Hsegs : Split url "/"
                  = (firstn (List.length pre + 3) seen
                     ++ (skipn (List.length pre + 3) seen ++ tl))%list).
  { rewrite app_assoc, firstn_skipn. subst seen.
    rewrite Hsplit, <- app_assoc. cbn [app]. now rewrite <- Htl. }
  destruct (concat_app_prefix "/" (firstn (List.length pre + 3) seen)
              (skipn (List.length pre + 3) seen ++ tl)) as (tail & Htail).
  exists tail. rewrite <- Htail, <- Hsegs. symmetry. apply concat_Split.
Qed.

(** A version tag that comes before any "github.com" segment ends the scan
    at once: the version is that tag and the repository is empty, whatever
    follows. *)
Theorem tag_before_host_hides_repo url pre tag post :
  Split url "/" = (pre ++ tag :: post)%list ->
  (forall s, In s pre ->
     EqualFold s "github.com" = false /\ matches versionPattern s = false) ->
  matches versionPattern tag = true ->
  getVersionAndRepoFromUrl url = ("", tag).
Proof.
  intros Hsplit Hpre Htag.
  unfold getVersionAndRepoFromUrl. rewrite Hsplit.
  rewrite (scan_from_start pre (tag :: post) Hpre).
  rewrite scan_step, Htag.
  destruct (EqualFold tag "github.com") eqn:He.
  - apply github_not_tag in He. congruence.
  - reflexivity.
Qed.

(** A version the scanner returns is never arbitrary: it is empty, or it is
    one of the segments of the URL, holds no slash, starts with [v] or [V]
    and is a version tag. *)
Theorem version_is_a_tagged_segment url :
  let v := snd (getVersionAndRepoFromUrl url) in
  v = "" \/
  (In v (Split url "/") /\ occurs "/" v = false /\ VersionTag v /\
   exists c rest, v = String c rest /\ is_vV c = true).
Proof.
  intro v. subst v. unfold getVersionAndRepoFromUrl. cbn [snd].
  rewrite scan_ver. cbn [ver].
  destruct (find (matches versionPattern) (Split url "/")) as [seg|] eqn:Hf;
    [right | now left].
  apply find_some in Hf as [Hin Hm].
  split; [assumption |]. split; [now apply Split_no_sep with url |].
  split; [now apply matches_versionPattern |].
  destruct seg as [|c rest]; [discriminate Hm |].
  exists c, rest. split; [reflexivity |].
  destruct (is_vV c) eqn:Hc; [reflexivity |].
  now rewrite (matches_needs_v c rest Hc) in Hm.
Qed.

End ScannerMore.

(** ** The recasing switch *)

Section RecaseFacts.

Context {codec : Json}.





End RecaseFacts.

(** ** The further properties at sample inputs *)

Module MoreWitness.

Import Sample.

Lemma CheckUpdate_no_newer_file_witness :
  CheckUpdate (codec := codec) planB
    (world (Some 10) (Some "file-b") (Some "height 250")) waiting
  = (Ret false, waiting, [Stat (filename waiting)]).
Proof.
  refine (CheckUpdate_no_newer_file (codec := codec) planB
            (world (Some 10) (Some "file-b") (Some "height 250")) waiting _).
  unfold not_newer. simpl. lia.
Defined.

Lemma MonitorUpdate_returns_once_witness :
  MonitorUpdate (codec := codec) planB
    ([Tick (world (Some 20) (Some "file-a") (Some "height 250"))]
     ++ [Tick (world (Some 30) (Some "file-b") (Some "height 250")); Cancel]) fresh
  = MonitorUpdate (codec := codec) planB
      [Tick (world (Some 20) (Some "file-a") (Some "height 250"))] fresh.
Proof.
  refine (MonitorUpdate_returns_once (codec := codec) planB
            [Tick (world (Some 20) (Some "file-a") (Some "height 250"))]
            [Tick (world (Some 30) (Some "file-b") (Some "height 250")); Cancel]
            fresh _).
  vm_compute. discriminate.
Defined.

Lemma MonitorUpdate_waits_for_newer_file_witness :
  exists l n,
    MonitorUpdate (codec := codec) planA
      [Tick (world (Some 10) (Some "file-b") None); Tick (world None None None)] ready
    = (l, set_needsUpdate false ready, repeat (Stat (filename ready)) n) /\
    (l = Waiting \/ l = Cancelled) /\ (n <= 2)%nat.
Proof.
  refine (MonitorUpdate_waits_for_newer_file (codec := codec) planA
            [Tick (world (Some 10) (Some "file-b") None); Tick (world None None None)]
            ready _).
  repeat constructor. unfold not_newer. simpl. lia.
Defined.

Lemma same_name_first_poll_then_quiet_witness :
  let w := world (Some 20) (Some "file-a") (Some "height 250") in
  monitorLoop (codec := codec) planA (ticks 3 w) fresh
  = (Waiting, adopt lowerA 20 (set_initialized true fresh),
     (pollTrace (codec := codec) w fresh lowerA
      ++ repeat (Stat (filename fresh)) 2)%list).
Proof.
  refine (same_name_first_poll_then_quiet (codec := codec) planA
            (world (Some 20) (Some "file-a") (Some "height 250"))
            fresh 20 lowerA 2 _ _ _ _ _ _ _); reflexivity.
Defined.

Lemma repo_is_prefix_of_url_witness :
  fst (getVersionAndRepoFromUrl
         "https://github.com/org/repo/releases/download/v1.2.3/bin")
  = String.concat "/" ["https:"; ""; "github.com"; "org"; "repo"]
  /\ exists tail,
       "https://github.com/org/repo/releases/download/v1.2.3/bin"
       = fst (getVersionAndRepoFromUrl
                "https://github.com/org/repo/releases/download/v1.2.3/bin") ++ tail.
Proof.
  refine (repo_is_prefix_of_url
            "https://github.com/org/repo/releases/download/v1.2.3/bin"
            ["https:"; ""] "github.com"
            ["org"; "repo"; "releases"; "download"; "v1.2.3"; "bin"] _ _ _ _).
  - reflexivity.
  - reflexivity.
  - intros s Hin. simpl in Hin.
    destruct Hin as [<- | [<- | []]]; split; reflexivity.
  - intros s Hin. simpl in Hin.
    repeat (destruct Hin as [<- | Hin]; [reflexivity |]). destruct Hin.
Defined.

Lemma tag_before_host_hides_repo_witness :
  getVersionAndRepoFromUrl "https://mirror.example/v2.0.0/github.com/org/repo"
  = ("", "v2.0.0").
Proof.
  refine (tag_before_host_hides_repo
            "https://mirror.example/v2.0.0/github.com/org/repo"
            ["https:"; ""; "mirror.example"] "v2.0.0"
            ["github.com"; "org"; "repo"] _ _ _).
  - reflexivity.
  - intros s Hin. simpl in Hin.
    destruct Hin as [<- | [<- | [<- | []]]]; split; reflexivity.
  - reflexivity.
Defined.

End MoreWitness.
